(** * terminal-prompt: a shallow embedding of [TerminalPrompt]

    The module under study is [terminal-prompt/src/main/__init__.py]: a value
    object [Options], a value object [Result], and the class [TerminalPrompt]
    with its fluent setters and its [execute] method.  [execute] either
    evaluates the configuration locally (CI mode) or drives a container
    pipeline with an attached terminal and reads the human's reply back.

    Python objects live in a store addressed by locations, so that "returns
    self" and in-place field assignment keep their meaning.  The outside world
    (wall clock, container engine, human at the terminal) is explicit state
    threaded through a small state-and-exception monad. *)

From Stdlib Require Import String Ascii List Bool Arith ZArith Lia.
From stdpp Require Import base gmap strings list pretty.

Import ListNotations.
Local Open Scope string_scope.
Local Open Scope list_scope.

(** ** Python strings

    A Python [str] is a sequence of code points.  The embedding uses Rocq's
    [string], whose characters are the code points below 256. *)

(** [str.isspace] on one character, restricted to code points below 256:
    TAB, LF, VT, FF, CR, the separators FS, GS, RS, US, the space, NEL and
    the no-break space. *)
Definition py_isspace (c : ascii) : bool :=
  let n := nat_of_ascii c in
  (((9 <=? n) && (n <=? 13)) || ((28 <=? n) && (n <=? 32))
   || (n =? 133) || (n =? 160))%nat.

(** [str.lstrip()] *)
Fixpoint lstrip (s : string) : string :=
  match s with
  | EmptyString => EmptyString
  | String c s' => if py_isspace c then lstrip s' else s
  end.

(** [str.rstrip()] *)
Fixpoint rstrip (s : string) : string :=
  match s with
  | EmptyString => EmptyString
  | String c s' =>
      match rstrip s' with
      | EmptyString => if py_isspace c then EmptyString else String c EmptyString
      | r => String c r
      end
  end.

(** [str.strip()] with no argument. *)
Definition strip (s : string) : string := rstrip (lstrip s).

(** [sep.join(parts)] *)
Fixpoint join (sep : string) (parts : list string) : string :=
  match parts with
  | [] => ""
  | [p] => p
  | p :: ps => p +:+ sep +:+ join sep ps
  end.

(** [x in l] on a list of strings: some element compares equal to [x]. *)
Definition py_in (x : string) (l : list string) : bool :=
  existsb (String.eqb x) l.

(** [sub in s] on strings: [sub] occurs in [s] as a contiguous run. *)
Fixpoint occurs_in (sub s : string) : bool :=
  String.prefix sub s ||
  match s with
  | EmptyString => false
  | String _ s' => occurs_in sub s'
  end.

(** The double quote character, as a one-character string. *)
Definition dq : string := String (ascii_of_nat 34) EmptyString.

(** ** Exceptions and results of a call *)

Inductive exn : Type :=
| ValueError      (* list.index on a missing element *)
| ReError         (* re.error: the pattern does not compile *)
| ExecError       (* the container engine reports a fault *)
| DanglingRef.    (* a location that holds no object; no Python run reaches it *)

Inductive outcome_of (A : Type) : Type :=
| Ok (a : A)
| Raise (e : exn).
Arguments Ok {A} a.
Arguments Raise {A} e.

(** ** The data model: [Options] and [Result] *)

Module Options.
Record t : Type := mk {
  ci : bool;
  msg : string;
  input : string;
  match_ : string;
  choices : list string
}.

(** The dataclass defaults of [Options]. *)
Definition default : t :=
  {| ci := true; msg := "Continue? (y/n)"; input := "n";
     match_ := "y"; choices := [] |}.
End Options.

Module Result.
Record t : Type := mk {
  outcome : bool;
  input : string
}.
End Result.

(** ** The store *)

Definition loc := nat.

(** A [TerminalPrompt] object holds a reference to its [Options] object. *)
Record TerminalPrompt : Type := mkTerminalPrompt { options : loc }.

Record Heap : Type := mkHeap {
  h_options : gmap nat Options.t;
  h_prompts : gmap nat TerminalPrompt;
  h_next : loc
}.

(** ** The container engine, as the program sees it *)

(** [dag.cache_volume(key=...)] *)
Record CacheVolume : Type := mkCacheVolume { key : string }.

(** One call in a container pipeline. *)
Inductive step : Type :=
| From_ (image : string)
| WithMountedCache (path : string) (cache : CacheVolume)
| Terminal (cmd : list string)
| WithExec (args : list string).

(** A pipeline is the chain of calls on [dag.container()], oldest first. *)
Definition Container := list step.

Definition cache_keys (c : Container) : list string :=
  flat_map (fun s => match s with
                     | WithMountedCache _ v => [key v]
                     | _ => []
                     end) c.

(** The arguments of the [with_exec] calls of a pipeline. *)
Definition exec_args (c : Container) : list (list string) :=
  flat_map (fun s => match s with
                     | WithExec a => [a]
                     | _ => []
                     end) c.

(** ** What the program takes from the Python runtime *)

(** Floats enter the program only as readings of [time.time()] that are
    rendered at once by an f-string, [f"{x}"].  The rendering of a float is
    its shortest round-tripping decimal form, so two different readings never
    render alike. *)
Class FloatRepr : Type := {
  pyfloat : Type;
  format_float : pyfloat -> string;
  format_float_inj : forall x y, format_float x = format_float y -> x = y
}.

(** The characters with a special meaning in a pattern of the [re] module. *)
Definition re_special (c : ascii) : bool :=
  existsb (Ascii.eqb c)
    (list_ascii_of_string ".^$*+?{}[]\|()").

(** The [re] module.  [re_compile] answers [None] where [re.compile] raises
    [re.error]; [re_match_at r s pos] tells whether the compiled pattern
    matches in [s] starting exactly at offset [pos].  The one fact about the
    pattern language that the program's defaults rely on is that a single
    ordinary character is a pattern matching exactly that character. *)
Class PyRe : Type := {
  pattern : Type;
  re_compile : string -> option pattern;
  re_match_at : pattern -> string -> nat -> bool;
  re_compile_char : forall c, re_special c = false ->
    exists r, re_compile (String c EmptyString) = Some r /\
              forall s pos, re_match_at r s pos = true <-> String.get pos s = Some c
}.

Section Program.

Context {FR : FloatRepr} {RE : PyRe}.

(** ** The outside world

    [clock n] is what the [n]-th call of [time.time()] returns, [ticks]
    counts the calls made so far.  [replies n c] is what the engine answers
    when the [n]-th pipeline it is asked to evaluate is [c]: the text on
    standard output, or [None] for a fault (a command exits non-zero, the
    terminal cannot attach).  [evaluated] records the pipelines the engine
    was asked to evaluate, oldest first. *)
Record World : Type := mkWorld {
  clock : nat -> pyfloat;
  ticks : nat;
  replies : nat -> Container -> option string;
  evaluated : list Container
}.

Record State : Type := mkState {
  heap : Heap;
  world : World
}.

(** The cache keys the engine has been presented with, oldest first. *)
Definition keys_presented (w : World) : list string :=
  flat_map cache_keys (evaluated w).

(** ** The monad of Python calls: state, and exceptions that keep the state *)

Definition M (A : Type) : Type := State -> outcome_of A * State.

Definition ret {A} (a : A) : M A := fun st => (Ok a, st).

Definition raise {A} (e : exn) : M A := fun st => (Raise e, st).

Definition bind {A B} (m : M A) (k : A -> M B) : M B :=
  fun st =>
    match m st with
    | (Ok a, st') => k a st'
    | (Raise e, st') => (Raise e, st')
    end.

Notation "'let*' x ':=' m 'in' k" := (bind m (fun x => k))
  (at level 10, x name, m at level 100, k at level 200, only parsing).

(** Reading and writing object fields. *)

Definition get_prompt (self : loc) : M TerminalPrompt :=
  fun st =>
    match h_prompts (heap st) !! self with
    | Some p => (Ok p, st)
    | None => (Raise DanglingRef, st)
    end.

Definition get_options_at (p : loc) : M Options.t :=
  fun st =>
    match h_options (heap st) !! p with
    | Some o => (Ok o, st)
    | None => (Raise DanglingRef, st)
    end.

(** [self.options] read through to the [Options] object. *)
Definition self_options (self : loc) : M Options.t :=
  let* p := get_prompt self in get_options_at (options p).

(** Assignment to one attribute of the [Options] object at [p]. *)
Definition update_options_at (p : loc) (f : Options.t -> Options.t) : M unit :=
  fun st =>
    match h_options (heap st) !! p with
    | Some o =>
        (Ok tt,
         {| heap := {| h_options := <[p := f o]> (h_options (heap st));
                       h_prompts := h_prompts (heap st);
                       h_next := h_next (heap st) |};
            world := world st |})
    | None => (Raise DanglingRef, st)
    end.

(** Allocation of a new [Options] object. *)
Definition new_Options (o : Options.t) : M loc :=
  fun st =>
    let p := h_next (heap st) in
    (Ok p,
     {| heap := {| h_options := <[p := o]> (h_options (heap st));
                   h_prompts := h_prompts (heap st);
                   h_next := S p |};
        world := world st |}).

(** [self.options = p] *)
Definition set_self_options (self p : loc) : M unit :=
  fun st =>
    match h_prompts (heap st) !! self with
    | Some _ =>
        (Ok tt,
         {| heap := {| h_options := h_options (heap st);
                       h_prompts := <[self := {| options := p |}]> (h_prompts (heap st));
                       h_next := h_next (heap st) |};
            world := world st |})
    | None => (Raise DanglingRef, st)
    end.

(** [TerminalPrompt()]: the [options] field is not an init argument, its
    default factory builds [Options()]. *)
Definition new_TerminalPrompt : M loc :=
  let* p := new_Options Options.default in
  fun st =>
    let self := h_next (heap st) in
    (Ok self,
     {| heap := {| h_options := h_options (heap st);
                   h_prompts := <[self := {| options := p |}]> (h_prompts (heap st));
                   h_next := S self |};
        world := world st |}).

(** ** Views of the store used in statements *)

(** The configuration a [TerminalPrompt] holds: its [options] field read
    through to the [Options] object. *)
Definition config_of (st : State) (self : loc) : option Options.t :=
  match h_prompts (heap st) !! self with
  | Some p => h_options (heap st) !! options p
  | None => None
  end.

(** The state after the [Options] object at [p] has become [o]. *)
Definition store_options (st : State) (p : loc) (o : Options.t) : State :=
  {| heap := {| h_options := <[p := o]> (h_options (heap st));
                h_prompts := h_prompts (heap st);
                h_next := h_next (heap st) |};
     world := world st |}.

(** The state after [n] more clock readings and the evaluation of [c]. *)
Definition after_session (st : State) (n : nat) (c : Container) : State :=
  {| heap := heap st;
     world := {| clock := clock (world st);
                 ticks := n + ticks (world st);
                 replies := replies (world st);
                 evaluated := evaluated (world st) ++ [c] |} |}.

(** ** The world's operations *)

(** [time.time()] *)
Definition time_time : M pyfloat :=
  fun st =>
    let w := world st in
    (Ok (clock w (ticks w)),
     {| heap := heap st;
        world := {| clock := clock w; ticks := S (ticks w);
                    replies := replies w; evaluated := evaluated w |} |}).

(** [await container.stdout()]: the engine evaluates the pipeline. *)
Definition stdout (c : Container) : M string :=
  fun st =>
    let w := world st in
    let st' := {| heap := heap st;
                  world := {| clock := clock w; ticks := ticks w;
                              replies := replies w;
                              evaluated := evaluated w ++ [c] |} |} in
    match replies w (length (evaluated w)) c with
    | Some out => (Ok out, st')
    | None => (Raise ExecError, st')
    end.

(** ** Library functions of Python *)

(** [re.search(pattern, string)]: compile the pattern, then scan the offsets
    [0 .. len(string)] for the first one where it matches.  The match object
    is represented by that offset. *)
Definition re_search (pat s : string) : M (option nat) :=
  match re_compile pat with
  | None => raise ReError
  | Some r => ret (List.find (re_match_at r s) (seq 0 (S (String.length s))))
  end.

(** [re.fullmatch(pattern, string)] is not used by the program; it is the
    notion [re.search] is contrasted with.  Only its being a match at offset
    0 matters here. *)

(** [l.index(x)]: the first position of [x] in [l], [ValueError] if there is
    none. *)
Fixpoint index_from (x : string) (l : list string) (i : Z) : option Z :=
  match l with
  | [] => None
  | y :: l' => if String.eqb y x then Some i else index_from x l' (i + 1)%Z
  end.

Definition list_index (l : list string) (x : string) : M Z :=
  match index_from x l 0%Z with
  | Some i => ret i
  | None => raise ValueError
  end.

(** ** The setters of [TerminalPrompt] *)

(** Python default arguments are [None] here; [with_options] fills them in. *)
Definition with_options (self : loc)
    (ci : option bool) (msg input match_ : option string)
    (choices : option (list string)) : M loc :=
  let* p := new_Options
         {| Options.ci := default true ci;
            Options.msg := default "Continue? (y/n)" msg;
            Options.input := default "" input;
            Options.match_ := default "y" match_;
            Options.choices := default [] choices |} in
  let* _ := set_self_options self p in
  ret self.

Definition with_ci (self : loc) (ci : bool) : M loc :=
  let* p := get_prompt self in
  let* _ := update_options_at (options p)
    (fun o => {| Options.ci := ci; Options.msg := Options.msg o;
                 Options.input := Options.input o;
                 Options.match_ := Options.match_ o;
                 Options.choices := Options.choices o |}) in
  ret self.

Definition with_msg (self : loc) (msg : string) : M loc :=
  let* p := get_prompt self in
  let* _ := update_options_at (options p)
    (fun o => {| Options.ci := Options.ci o; Options.msg := msg;
                 Options.input := Options.input o;
                 Options.match_ := Options.match_ o;
                 Options.choices := Options.choices o |}) in
  ret self.

Definition with_input (self : loc) (input : string) : M loc :=
  let* p := get_prompt self in
  let* _ := update_options_at (options p)
    (fun o => {| Options.ci := Options.ci o; Options.msg := Options.msg o;
                 Options.input := input;
                 Options.match_ := Options.match_ o;
                 Options.choices := Options.choices o |}) in
  ret self.

Definition with_match (self : loc) (match_ : string) : M loc :=
  let* p := get_prompt self in
  let* _ := update_options_at (options p)
    (fun o => {| Options.ci := Options.ci o; Options.msg := Options.msg o;
                 Options.input := Options.input o;
                 Options.match_ := match_;
                 Options.choices := Options.choices o |}) in
  ret self.

Definition with_choices (self : loc) (choices : list string) : M loc :=
  let* p := get_prompt self in
  let* _ := update_options_at (options p)
    (fun o => {| Options.ci := Options.ci o; Options.msg := Options.msg o;
                 Options.input := Options.input o;
                 Options.match_ := Options.match_ o;
                 Options.choices := choices |}) in
  ret self.

(** ** The interactive sessions *)

(** [" ".join(f"\"{choice}\"" for i, choice in enumerate(choices))] *)
Definition choices_str (choices : list string) : string :=
  join " " (map (fun choice => dq +:+ choice +:+ dq) choices).

Definition nl : string := String (ascii_of_nat 10) EmptyString.

(** The indentation the script's lines carry inside the f-string. *)
Definition ind : string := "                    ".

(** The shell script of the selection menu, as the f-string builds it. *)
Definition choice_script (msg : string) (choices : list string) : string :=
  nl +:+ ind +:+ "#!/bin/sh" +:+
  nl +:+ ind +:+ "choices=(" +:+ choices_str choices +:+ ")" +:+
  nl +:+ ind +:+ "echo " +:+ dq +:+ msg +:+ " (^C to abort)" +:+ dq +:+
  nl +:+ ind +:+ "select choice in " +:+ dq +:+ "${choices[@]}" +:+ dq +:+ "; do" +:+
  nl +:+ ind +:+ "    # choice being empty signals invalid input." +:+
  nl +:+ ind +:+ "    [[ -n $choice ]] || { echo " +:+ dq
            +:+ "Invalid choice. Please try again." +:+ dq +:+ " >&2; continue; }" +:+
  nl +:+ ind +:+ "    break # a valid choice was made, exit the prompt." +:+
  nl +:+ ind +:+ "done" +:+
  nl +:+ ind +:+ "echo $choice > /tmp/prompt/input" +:+
  nl +:+ ind.

(** The no-op command that carries the cache-busting token. *)
Definition marker_cmd (cache_buster : string) : list string :=
  ["sh"; "-c"; ": " +:+ cache_buster +:+ " && exit 0"].

(** The [user_choice_reply] property. *)
Definition user_choice_reply (self : loc) : M Result.t :=
  let* o := self_options self in
  let script := choice_script (Options.msg o) (Options.choices o) in
  let* t := time_time in
  let cache_buster := format_float t in
  let cache := {| key := cache_buster |} in
  let* response :=
    stdout [ From_ "bash";
             WithMountedCache "/tmp/prompt" cache;
             Terminal ["bash"; "-c"; script];
             WithExec (marker_cmd cache_buster);
             WithExec ["cat"; "/tmp/prompt/input"] ] in
  let* i := list_index (Options.choices o) (strip response) in
  ret {| Result.outcome := negb (i =? -1)%Z; Result.input := response |}.

Definition user_text_reply (self : loc) : M Result.t :=
  let* o := self_options self in
  let* t := time_time in
  let cache_buster := format_float t in
  let* t' := time_time in
  let* out :=
    stdout [ From_ "bash";
             WithMountedCache "/tmp/prompt" {| key := format_float t' |};
             Terminal ["sh"; "-c";
                       "read -p '" +:+ Options.msg o
                         +:+ " ' && echo $REPLY > /tmp/prompt/input"];
             WithExec (marker_cmd cache_buster);
             WithExec ["cat"; "/tmp/prompt/input"] ] in
  let response := strip out in
  let* m := re_search (Options.match_ o) response in
  ret {| Result.outcome := bool_decide (m <> None); Result.input := response |}.

(** The pipeline [user_choice_reply] hands to the engine when the clock
    reads [t]. *)
Definition choice_pipeline (o : Options.t) (t : pyfloat) : Container :=
  [ From_ "bash";
    WithMountedCache "/tmp/prompt" {| key := format_float t |};
    Terminal ["bash"; "-c"; choice_script (Options.msg o) (Options.choices o)];
    WithExec (marker_cmd (format_float t));
    WithExec ["cat"; "/tmp/prompt/input"] ].

(** The pipeline [user_text_reply] hands to the engine when the clock reads
    [t] and then [t']. *)
Definition text_pipeline (o : Options.t) (t t' : pyfloat) : Container :=
  [ From_ "bash";
    WithMountedCache "/tmp/prompt" {| key := format_float t' |};
    Terminal ["sh"; "-c";
              "read -p '" +:+ Options.msg o
                +:+ " ' && echo $REPLY > /tmp/prompt/input"];
    WithExec (marker_cmd (format_float t));
    WithExec ["cat"; "/tmp/prompt/input"] ].

(** Which clock reading of an attended invocation becomes its cache key: the
    first one in choice mode, the second one in free-text mode. *)
Definition key_tick (o : Options.t) (w : World) : nat :=
  if (0 <? length (Options.choices o))%nat then ticks w else S (ticks w).

(** The pipeline an attended invocation hands to the engine from world [w]. *)
Definition session_pipeline (o : Options.t) (w : World) : Container :=
  if (0 <? length (Options.choices o))%nat
  then choice_pipeline o (clock w (ticks w))
  else text_pipeline o (clock w (ticks w)) (clock w (S (ticks w))).

(** ** [execute] *)

Definition execute (self : loc) : M Result.t :=
  let* o := self_options self in
  if Options.ci o then
    if (0 <? length (Options.choices o))%nat then
      ret {| Result.outcome := py_in (Options.input o) (Options.choices o);
             Result.input := Options.input o |}
    else
      let* m := re_search (Options.match_ o) (Options.input o) in
      ret {| Result.outcome := bool_decide (m <> None);
             Result.input := Options.input o |}
  else
    if (0 <? length (Options.choices o))%nat then user_choice_reply self
    else user_text_reply self.

End Program.

(** The sequencing notation of the program section, for the statements
    below. *)
Notation "'let*' x ':=' m 'in' k" := (bind m (fun x => k))
  (at level 10, x name, m at level 100, k at level 200, only parsing).

(** ** The badge module: [DaggerBadge.add_badge_to_markdown]

    From [dagger-readme-badge/src/main/__init__.py]: the static method that
    puts a badge line into a markdown text, below its first heading. *)

Definition line_feed : ascii := ascii_of_nat 10.

(** [s.split(sep)] for a one-character separator: the pieces between the
    separators, at least one piece. *)
Fixpoint split_on (sep : ascii) (s : string) : list string :=
  match s with
  | EmptyString => [EmptyString]
  | String c s' =>
      if Ascii.eqb c sep then EmptyString :: split_on sep s'
      else match split_on sep s' with
           | h :: t => String c h :: t
           | [] => [String c EmptyString]
           end
  end.

(** [l.insert(i, x)] for [i >= 0]: [x] goes before position [i], or last
    when the list is shorter. *)
Definition py_insert (i : nat) (x : string) (l : list string) : list string :=
  firstn i l ++ x :: skipn i l.

(** [line.startswith('#')] *)
Definition starts_with_hash (line : string) : bool :=
  match line with
  | String c _ => Ascii.eqb c "#"
  | EmptyString => false
  end.

(** The truth value of [line.strip()]: the line has something besides
    whitespace. *)
Definition nonblank (line : string) : bool :=
  negb (String.eqb (strip line) EmptyString).

(** Does the character [c] occur in [s]? *)
Fixpoint has_char (c : ascii) (s : string) : bool :=
  match s with
  | EmptyString => false
  | String d s' => Ascii.eqb d c || has_char c s'
  end.

(** [str.encode('utf-8')] on one character: a code point below 128 is one
    byte, one below 256 is two. *)
Definition utf8_char (c : ascii) : list ascii :=
  let n := nat_of_ascii c in
  if (n <? 128)%nat then [c]
  else [ascii_of_nat (192 + n / 64); ascii_of_nat (128 + n mod 64)].

Definition encode_utf8 (s : string) : list ascii :=
  flat_map utf8_char (list_ascii_of_string s).

(** The bytes [urllib.parse.quote] never escapes: letters, digits and
    [_.-~]. *)
Definition always_safe (b : ascii) : bool :=
  let n := nat_of_ascii b in
  (((65 <=? n) && (n <=? 90)) || ((97 <=? n) && (n <=? 122))
   || ((48 <=? n) && (n <=? 57))
   || (n =? 95) || (n =? 46) || (n =? 45) || (n =? 126))%nat.

(** One upper-case hexadecimal digit. *)
Definition hex_digit (n : nat) : ascii :=
  if (n <? 10)%nat then ascii_of_nat (48 + n) else ascii_of_nat (55 + n).

(** [quote(bs, safe='')] on bytes: a safe byte stands for itself, any other
    becomes a percent sign and two hexadecimal digits. *)
Fixpoint quote_from_bytes (bs : list ascii) : string :=
  match bs with
  | [] => EmptyString
  | b :: bs' =>
      if always_safe b then String b (quote_from_bytes bs')
      else
        let n := nat_of_ascii b in
        String "%" (String (hex_digit (n / 16))
                      (String (hex_digit (n mod 16)) (quote_from_bytes bs')))
  end.

(** Does [p] hold of every character of [s]? *)
Fixpoint all_chars (p : ascii -> bool) (s : string) : bool :=
  match s with
  | EmptyString => true
  | String c s' => p c && all_chars p s'
  end.

(** What a quoted value is made of. *)
Definition quoted_char (c : ascii) : bool :=
  always_safe c || Ascii.eqb c "%".

Module DaggerBadge.

Record t : Type := mk { raw_url : string }.

Definition segment_prefix : string := "![Dagger]".
Definition img_shield_link : string := "https://img.shields.io/badge/dynamic/json".
Definition json_query : string := "$.engineVersion".
Definition dagger_label_name : string := "Dagger".
Definition dagger_link : string := "https://github.com/dagger/dagger".
Definition logo_data : string :=
  "data:image/svg+xml;base64,PHN2ZyB4bWxucz0iaHR0cDovL3d3dy53My5vcm"
  +:+ "cvMjAwMC9zdmciIGlkPSJDYWxxdWVfNSIgdmlld0JveD0iMCAwIDIyMS4xMDIgMj"
  +:+ "IxLjEwMiI+PGRlZnM+PHN0eWxlPi5jbHMtNHtmaWxsOiNiZTFkNDN9LmNscy01e2"
  +:+ "ZpbGw6IzEzMTIyNn0uY2xzLTZ7ZmlsbDojNDBiOWJjfTwvc3R5bGU+PC9kZWZzPj"
  +:+ "xjaXJjbGUgY3g9IjExMC41NTEiIGN5PSIxMTAuNTUxIiByPSIxMTAuNTI1IiBjbG"
  +:+ "Fzcz0iY2xzLTUiLz48Y2lyY2xlIGN4PSIxMTAuNTUxIiBjeT0iMTEwLjU1MSIgcj"
  +:+ "0iOTQuODMzIiBjbGFzcz0iY2xzLTUiIHRyYW5zZm9ybT0icm90YXRlKC00NSAxMT"
  +:+ "AuNTUgMTEwLjU1MSkiLz48cGF0aCBkPSJNMTcuNTQ4IDkxLjk0NGE5NS4yODggOT"
  +:+ "UuMjg4IDAgMCAwLTEuNjk5IDIzLjYxNGM1LjgyOC4xMDEgMTAuODUxLTEuMDggMT"
  +:+ "QuMzQxLTQuMTIyIDE3LjMxNi0xNS4wOTMgNTAuMDg4LTEwLjgxMyA1MC4wODgtMT"
  +:+ "AuODEzcy0xMC4wNjQtMTcuMzczLTYyLjczLTguNjc5eiIgY2xhc3M9ImNscy02Ii"
  +:+ "8+PHBhdGggZD0iTTI2LjgxOSA2Ni4wMDJjNDkuMDUzLTE1LjA4NyA2MS42MDkgMT"
  +:+ "AuMTQgNjQuMjM0IDE4LjI4MiAwIDAgMy4wMDMtNDYuMDUyLTM0Ljc3OC01MS41YT"
  +:+ "k1LjI2NyA5NS4yNjcgMCAwIDAtMjkuNDU2IDMzLjIxOXoiIGNsYXNzPSJjbHMtNC"
  +:+ "IvPjxwYXRoIGZpbGw9IiNlZjdiMWEiIGQ9Ik0xMTAuMTY3IDcxLjExOHM1LjEzMy"
  +:+ "0zMi4yODQgMTQuMjI5LTU0LjM5YTk1LjYyOSA5NS42MjkgMCAwIDAtMjguNDE0Lj"
  +:+ "EwNWM5LjA2OSAyMi4xMDQgMTQuMTg1IDU0LjI4NiAxNC4xODUgNTQuMjg2eiIvPj"
  +:+ "xwYXRoIGQ9Ik0xNjQuNzA0IDMyLjY5OGMtMzguNDU2IDUuMDE3LTM1LjQyMiA1MS"
  +:+ "41ODYtMzUuNDIyIDUxLjU4NiAyLjY0MS04LjE5MiAxNS4zMzYtMzMuNjg0IDY1Lj"
  +:+ "E1MS0xNy45OTdhOTUuMjggOTUuMjggMCAwIDAtMjkuNzI5LTMzLjU4OXoiIGNsYX"
  +:+ "NzPSJjbHMtNCIvPjxwYXRoIGQ9Ik0yMDMuNTc5IDkyLjA3NGMtNTMuMzYzLTkuMD"
  +:+ "AzLTYzLjUyMiA4LjU1LTYzLjUyMiA4LjU1czMyLjc3Mi00LjI4IDUwLjA4OCAxMC"
  +:+ "44MTNjMy42NDIgMy4xNzQgOC45NTUgNC4zMTkgMTUuMTA5IDQuMDk4YTk1LjMzNy"
  +:+ "A5NS4zMzcgMCAwIDAtMS42NzUtMjMuNDYxeiIgY2xhc3M9ImNscy02Ii8+PHBhdG"
  +:+ "ggZmlsbD0iI2ZjYzAwOSIgZD0iTTExMC41NTEgMjA1LjM4NGMyLjYzNyAwIDUuMj"
  +:+ "Q4LS4xMTMgNy44My0uMzI0LTYuMjU3LTEwLjg1Ny02LjYwOC0yNy4zODgtNi42MD"
  +:+ "gtMzcuNjE0IDAgMCA2LjI3MSAyNy44OTggMTMuOTE3IDM2LjcyOSAyNS41NC00Lj"
  +:+ "A5OCA0Ny42NzItMTguMzkgNjIuMDg3LTM4LjU3NS0yLjY0Ny0yLjUyMy04LjQ0Ny"
  +:+ "01Ljk3MS0xNi4zNTkgMS4yMDUgMCAwIDMuNDgyLTEzLjc2IDE5LjExNS03LjMyOS"
  +:+ "0yLjg4Ny03LjY2NS0xMC41MzMtMTIuOTk0LTE5LjM1Mi0xMi4zMTgtOS4zNjkuNz"
  +:+ "E5LTE2Ljk1NSA4LjQyNi0xNy41NTMgMTcuODAzLS4zMSA0Ljg2OCAxLjIyNCA5Lj"
  +:+ "M1NyAzLjk0NSAxMi44ODQtNC45MTcuOTMxLTkuMTU5IDMuNzQ3LTExLjk2MyA3Lj"
  +:+ "Y2OS0uNzM2LTQuNTQyLTQuNjY1LTguMDE0LTkuNDE1LTguMDE0YTkuNDg5IDkuND"
  +:+ "g5IDAgMCAwLTUuNzIgMS45MTZjLTIuMTExLTEuNzMxLTQuNDEzLTQuNDMyLTYuNz"
  +:+ "AxLTcuODY0LTYuMDMzLTkuMDQ5LTguNjQ2LTIyLjgyNi05LjY0My0zMC43Mi0uMj"
  +:+ "UzLTEuOTk4LTEuOTUtMy40OS0zLjk2NC0zLjQ5cy0zLjcxMSAxLjQ5MS0zLjk2NC"
  +:+ "AzLjQ5Yy0uOTk3IDcuODk0LTQuMzAxIDIxLjY3MS0xMC4zMzUgMzAuNzItNy42OT"
  +:+ "YgMTEuNTQ0LTEzLjA4MyAxMi42OTktMTYuMjkgMGwtLjA1OS4wMTRjLTIuNjk3LT"
  +:+ "kuNTUyLTExLjQ1Ny0xNi41Ni0yMS44NzMtMTYuNTYtOS43MTggMC0xNy45NzUgNi"
  +:+ "4xMDktMjEuMjI3IDE0LjY4NWE5NS4zMjcgOTUuMzI3IDAgMCAwIDEwLjkwMSAxMS"
  +:+ "41MzFjMTEuODQ3LTEwLjIzNyAyMS44NjggMy42NjkgMjEuODY4IDMuNjY5LTguNT"
  +:+ "IxLTMuOTEtMTQuMzUzLTIuODUtMTguMTg2LS41MzggMTEuMzgzIDkuMTk2IDI0Lj"
  +:+ "kzNCAxNS44MTIgMzkuNzY5IDE4Ljk2IDYuMTkxLTcuMTE1IDEyLjE1MS0yMC4zND"
  +:+ "UgMTIuMTUxLTIwLjM0NSAwIDQuNDgzLTIuNTggMTQuOTAyLTYuNDAxIDIxLjM4Mm"
  +:+ "E5NS41NzMgOTUuNTczIDAgMCAwIDE0LjAyOSAxLjAzNXoiLz48cGF0aCBmaWxsPS"
  +:+ "IjZmZmIiBkPSJNMTEzLjIwOCA4MS43OTVhNC4wNzggNC4wNzggMCAwIDAtMy4wNC"
  +:+ "0xLjM1MiA0LjA4MSA0LjA4MSAwIDAgMC0zLjA0IDEuMzUyYy0yMS40ODIgMjMuNz"
  +:+ "g5LTI2Ljc1MSA1NS43MjgtMjAuNTc1IDU5Ljk3NCA2LjQ1OSA0LjQ0IDE0LjUzMi"
  +:+ "0xNC45MzIgMjMuMjExLTE1LjEzM2guODA4YzguNjc4LjIwMiAxNi43NTIgMTkuNT"
  +:+ "c0IDIzLjIxMSAxNS4xMzMgNi4xNzctNC4yNDcuOTA4LTM2LjE4Ni0yMC41NzUtNT"
  +:+ "kuOTc0em0tMy4wNCAzMS41NjhhNi4zNyA2LjM3IDAgMSAxIDAtMTIuNzQgNi4zNy"
  +:+ "A2LjM3IDAgMCAxIDAgMTIuNzR6Ii8+PC9zdmc+".

(** [urllib.parse.quote(str(v).encode('utf-8'), safe='')] *)
Definition encoded (v : string) : string := quote_from_bytes (encode_utf8 v).

Definition link (self : t) : string :=
  let badge_url :=
    img_shield_link
    +:+ "?label=" +:+ encoded dagger_label_name
    +:+ "&query=" +:+ encoded json_query
    +:+ "&link=" +:+ encoded dagger_link
    +:+ "&url=" +:+ encoded (raw_url self)
    +:+ "&logo=" +:+ encoded logo_data in
  segment_prefix +:+ "(" +:+ badge_url +:+ ")".

(** The [for i, line in enumerate(lines)] loop, at position [i] with [rest]
    still to visit.  [lines] is the list the loop may insert into; an
    insertion is followed by [break]. *)
Fixpoint scan (markdown_link : string) (lines rest : list string)
    (i : nat) (found_heading : bool) : list string :=
  match rest with
  | [] => lines
  | line :: rest' =>
      if starts_with_hash line && negb found_heading then
        scan markdown_link lines rest' (S i) true
      else if found_heading && nonblank line then
        py_insert (i + 2) EmptyString
          (py_insert (i + 1) markdown_link
             (py_insert i EmptyString lines))
      else
        scan markdown_link lines rest' (S i) found_heading
  end.

Definition add_badge_to_markdown (markdown markdown_link : string) : string :=
  let lines := split_on line_feed markdown in
  join (String line_feed EmptyString)
    (scan markdown_link lines lines 0 false).

(** The two constant parts of a link, before and after the quoted
    [raw_url]. *)
Definition link_head : string :=
  "![Dagger](https://img.shields.io/badge/dynamic/json?label=Dagger"
  +:+ "&query=%24.engineVersion"
  +:+ "&link=https%3A%2F%2Fgithub.com%2Fdagger%2Fdagger"
  +:+ "&url=".

Definition link_tail : string := "&logo=" +:+ encoded logo_data +:+ ")".

(** The contents of the file [add_to_readme] returns, from the contents of
    the file it is given. *)
Definition add_to_readme (self : t) (markdown : string) : string :=
  add_badge_to_markdown markdown (link self).

End DaggerBadge.

(** ** Edges of a string

    What [strip] is about: the first and the last character of a text. *)

Definition first_char (s : string) : option ascii :=
  match s with
  | EmptyString => None
  | String c _ => Some c
  end.

Fixpoint last_char (s : string) : option ascii :=
  match s with
  | EmptyString => None
  | String c EmptyString => Some c
  | String _ s' => last_char s'
  end.

Definition space_at (o : option ascii) : bool :=
  match o with
  | Some c => py_isspace c
  | None => false
  end.

(** No whitespace at either end. *)
Definition trimmed (s : string) : bool :=
  negb (space_at (first_char s)) && negb (space_at (last_char s)).

(** ** A reference runtime

    Concrete instances of the two runtime interfaces, used to run the program
    on concrete inputs. *)

(** Clock readings in whole seconds: the float [1700000000.0] is the number
    [1700000000], rendered with its [.0]. *)
Definition format_seconds (n : N) : string := pretty n +:+ ".0".

(** A small pattern engine.  It implements ordinary characters, [.], the
    anchors [^] and [$], and the postfix [*], [+] and [?] on a character or
    [.].  [simple_compile] answers [None] on the patterns of this syntax that
    [re] rejects (a repetition with nothing to repeat, a repeated anchor) and
    on every pattern that uses a construct it does not implement (groups,
    alternation, classes, counted or nested repetition, escapes). *)
Inductive atom : Type :=
| ALit (c : ascii)
| AAny
| ABol
| AEol.

Inductive quant : Type := QOne | QStar | QPlus | QOpt.

Definition item : Type := atom * quant.

Definition atom_of (c : ascii) : option atom :=
  if Ascii.eqb c "." then Some AAny
  else if Ascii.eqb c "^" then Some ABol
  else if Ascii.eqb c "$" then Some AEol
  else if re_special c then None
  else Some (ALit c).

Definition quant_of (c : ascii) : option quant :=
  if Ascii.eqb c "*" then Some QStar
  else if Ascii.eqb c "+" then Some QPlus
  else if Ascii.eqb c "?" then Some QOpt
  else None.

Definition is_anchor (a : atom) : bool :=
  match a with
  | ABol | AEol => true
  | _ => false
  end.

Fixpoint parse (p : list ascii) : option (list item) :=
  match p with
  | [] => Some []
  | c :: rest =>
      match atom_of c with
      | None => None
      | Some a =>
          match rest with
          | [] => Some [(a, QOne)]
          | q :: rest' =>
              match quant_of q with
              | None => option_map (cons (a, QOne)) (parse rest)
              | Some k =>
                  if is_anchor a then None
                  else
                    match rest' with
                    | [] => Some [(a, k)]
                    | q2 :: _ =>
                        match quant_of q2 with
                        | Some _ => None
                        | None => option_map (cons (a, k)) (parse rest')
                        end
                    end
              end
          end
      end
  end.

Definition simple_compile (p : string) : option (list item) :=
  parse (list_ascii_of_string p).

(** Does the one-character atom [a] accept [c]?  [.] accepts everything but
    a line feed. *)
Definition atom_char (a : atom) (c : ascii) : bool :=
  match a with
  | ALit c' => Ascii.eqb c c'
  | AAny => negb (Ascii.eqb c (ascii_of_nat 10))
  | ABol | AEol => false
  end.

(** [$] holds at the end of the text and just before a final line feed. *)
Definition at_eol (rest : list ascii) : bool :=
  match rest with
  | [] => true
  | [c] => Ascii.eqb c (ascii_of_nat 10)
  | _ => false
  end.

(** Zero or more characters accepted by [a], then the continuation [k]. *)
Fixpoint star_loop (k : nat -> list ascii -> bool) (a : atom)
    (pos : nat) (rest : list ascii) : bool :=
  match rest with
  | c :: r => (atom_char a c && star_loop k a (S pos) r) || k pos rest
  | [] => k pos rest
  end.

(** Do the items match a prefix of [rest], which starts at offset [pos] of
    the whole text? *)
Fixpoint match_items (its : list item) (pos : nat) (rest : list ascii) : bool :=
  match its with
  | [] => true
  | (ABol, _) :: its' => (pos =? 0)%nat && match_items its' pos rest
  | (AEol, _) :: its' => at_eol rest && match_items its' pos rest
  | (a, QOne) :: its' =>
      match rest with
      | c :: r => atom_char a c && match_items its' (S pos) r
      | [] => false
      end
  | (a, QOpt) :: its' =>
      match rest with
      | c :: r => (atom_char a c && match_items its' (S pos) r)
                  || match_items its' pos rest
      | [] => match_items its' pos rest
      end
  | (a, QStar) :: its' => star_loop (match_items its') a pos rest
  | (a, QPlus) :: its' =>
      match rest with
      | c :: r => atom_char a c && star_loop (match_items its') a (S pos) r
      | [] => false
      end
  end.

Definition simple_match_at (r : list item) (s : string) (pos : nat) : bool :=
  (pos <=? String.length s)%nat
  && match_items r pos (skipn pos (list_ascii_of_string s)).

(** ** The reference runtime meets the interfaces *)

Lemma string_length_app (s t : string) :
  String.length (s +:+ t) = (String.length s + String.length t)%nat.
Proof. induction s as [|c s IH]; simpl; [reflexivity | now rewrite IH]. Qed.

Lemma string_app_inj_r (t s1 s2 : string) : s1 +:+ t = s2 +:+ t -> s1 = s2.
Proof.
  revert s2. induction s1 as [|c s1 IH]; intros [|d s2] E.
  - reflexivity.
  - apply (f_equal String.length) in E.
    rewrite !string_length_app in E. simpl in E. lia.
  - apply (f_equal String.length) in E.
    rewrite !string_length_app in E. simpl in E. lia.
  - cbn in E. injection E as -> E. f_equal. now apply IH.
Qed.

Lemma format_seconds_inj (x y : N) : format_seconds x = format_seconds y -> x = y.
Proof.
  unfold format_seconds. intros E.
  apply string_app_inj_r in E. now apply (inj pretty).
Qed.

Lemma skipn_get (s : string) (pos : nat) :
  String.get pos s = hd_error (skipn pos (list_ascii_of_string s)).
Proof.
  revert pos. induction s as [|c s IH]; intros [|pos]; simpl; try reflexivity.
  apply IH.
Qed.

Lemma atom_of_ordinary (c : ascii) : re_special c = false -> atom_of c = Some (ALit c).
Proof.
  intros H. unfold atom_of.
  destruct (Ascii.eqb_spec c ".") as [->|_]; [discriminate H|].
  destruct (Ascii.eqb_spec c "^") as [->|_]; [discriminate H|].
  destruct (Ascii.eqb_spec c "$") as [->|_]; [discriminate H|].
  now rewrite H.
Qed.

Lemma simple_compile_char (c : ascii) :
  re_special c = false ->
  exists r, simple_compile (String c EmptyString) = Some r /\
            forall s pos, simple_match_at r s pos = true <-> String.get pos s = Some c.
Proof.
  intros H. exists [(ALit c, QOne)]. split.
  - unfold simple_compile. simpl. now rewrite (atom_of_ordinary c H).
  - intros s pos. unfold simple_match_at. rewrite skipn_get. simpl.
    split.
    + intros E. apply andb_prop in E as [_ E].
      destruct (skipn pos (list_ascii_of_string s)) as [|d r]; [discriminate|].
      simpl. rewrite andb_true_r in E. apply Ascii.eqb_eq in E. now subst.
    + intros E.
      destruct (skipn pos (list_ascii_of_string s)) as [|d r] eqn:Es;
        [discriminate|].
      simpl in E. injection E as ->.
      rewrite Ascii.eqb_refl. simpl. rewrite andb_true_r.
      apply Nat.leb_le.
      destruct (Nat.le_gt_cases pos (String.length s)) as [L|L]; [exact L|].
      exfalso. rewrite skipn_all2 in Es; [discriminate|].
      rewrite <- (string_of_list_ascii_of_string s) in L.
      clear -L. revert L. generalize (list_ascii_of_string s). intros l.
      assert (String.length (string_of_list_ascii l) = length l) as ->
        by (induction l; simpl; congruence).
      lia.
Qed.

#[export] Instance seconds_repr : FloatRepr :=
  {| pyfloat := N; format_float := format_seconds;
     format_float_inj := format_seconds_inj |}.

#[export] Instance simple_re : PyRe :=
  {| pattern := list item; re_compile := simple_compile;
     re_match_at := simple_match_at;
     re_compile_char := simple_compile_char |}.

(** ** Concrete states

    One [TerminalPrompt] at location 1 holding the [Options] object at
    location 0, in a world run by the reference runtime. *)

Definition one_prompt (o : Options.t) (w : World) : State :=
  {| heap := {| h_options := {[ 0%nat := o ]};
                h_prompts := {[ 1%nat := {| options := 0%nat |} ]};
                h_next := 2 |};
     world := w |}.

(** A clock that advances by one second per reading, and an engine whose
    [n]-th evaluation reads back the [n]-th of [answers] (a fault once they
    run out). *)
Definition ticking_world (answers : list string) : World :=
  {| clock := fun n => (1700000000 + N.of_nat n)%N;
     ticks := 0;
     replies := fun n _ => answers !! n;
     evaluated := [] |}.

(** The same engine under a clock that reads the same second every time. *)
Definition frozen_world (answers : list string) : World :=
  {| clock := fun _ => 1700000000%N;
     ticks := 0;
     replies := fun n _ => answers !! n;
     evaluated := [] |}.

Definition fruit : list string := ["apple"; "bear"; "orange"].

Definition ci_fruit (input : string) : Options.t :=
  {| Options.ci := true; Options.msg := "Continue? (y/n)";
     Options.input := input; Options.match_ := "y"; Options.choices := fruit |}.

Definition ci_pattern (match_ input : string) : Options.t :=
  {| Options.ci := true; Options.msg := "Continue? (y/n)";
     Options.input := input; Options.match_ := match_; Options.choices := [] |}.

Definition attended_fruit : Options.t :=
  {| Options.ci := false; Options.msg := "Continue? (y/n)";
     Options.input := "n"; Options.match_ := "y"; Options.choices := fruit |}.

Definition attended_text : Options.t :=
  {| Options.ci := false; Options.msg := "Continue? (y/n)";
     Options.input := "n"; Options.match_ := "y"; Options.choices := [] |}.

(** An attended configuration whose pattern does not compile. *)
Definition attended_invalid_pattern : Options.t :=
  {| Options.ci := false; Options.msg := "Continue? (y/n)";
     Options.input := "n"; Options.match_ := "("; Options.choices := [] |}.

(** An attended configuration whose one choice begins with a space. *)
Definition attended_padded_choice : Options.t :=
  {| Options.ci := false; Options.msg := "Continue? (y/n)";
     Options.input := "n"; Options.match_ := "y"; Options.choices := [" yes"] |}.

(** * Properties *)

(** ** How the program's pieces run *)

Section Runs.

Context {FR : FloatRepr} {RE : PyRe}.

Lemma self_options_ok (st : State) (self : loc) (o : Options.t) :
  config_of st self = Some o -> self_options self st = (Ok o, st).
Proof.
  unfold config_of, self_options, bind, get_prompt, get_options_at.
  destruct (h_prompts (heap st) !! self) as [p|]; [|discriminate].
  now intros ->.
Qed.

Lemma py_in_In (x : string) (l : list string) : py_in x l = true <-> In x l.
Proof.
  unfold py_in. rewrite existsb_exists. split.
  - intros (y & Hy & E). apply String.eqb_eq in E. now subst.
  - intros H. exists x. split; [exact H | apply String.eqb_refl].
Qed.

Lemma index_from_ge (x : string) (l : list string) (i j : Z) :
  index_from x l i = Some j -> (i <= j)%Z.
Proof.
  revert i. induction l as [|y l IH]; intros i; simpl; [discriminate|].
  destruct (String.eqb y x).
  - intros [= <-]. lia.
  - intros H. apply IH in H. lia.
Qed.

Lemma index_from_py_in (x : string) (l : list string) (i : Z) :
  py_in x l = negb (bool_decide (index_from x l i = None)).
Proof.
  revert i. induction l as [|y l IH]; intros i; simpl; [reflexivity|].
  rewrite (String.eqb_sym x y). destruct (String.eqb y x); simpl.
  - reflexivity.
  - apply IH.
Qed.

Lemma list_index_run (l : list string) (x : string) (st : State) :
  (py_in x l = true /\
   exists i, (0 <= i)%Z /\ list_index l x st = (Ok i, st)) \/
  (py_in x l = false /\ list_index l x st = (Raise ValueError, st)).
Proof.
  unfold list_index. rewrite (index_from_py_in x l 0).
  destruct (index_from x l 0) as [i|] eqn:E.
  - left. split; [reflexivity|]. exists i. split; [|reflexivity].
    now apply index_from_ge in E.
  - right. split; reflexivity.
Qed.

(** [user_choice_reply], one clock reading and one pipeline later. *)
Lemma user_choice_reply_run (st : State) (self : loc) (o : Options.t) :
  config_of st self = Some o ->
  let c := choice_pipeline o (clock (world st) (ticks (world st))) in
  user_choice_reply self st =
    (match replies (world st) (length (evaluated (world st))) c with
     | None => Raise ExecError
     | Some out =>
         if py_in (strip out) (Options.choices o)
         then Ok {| Result.outcome := true; Result.input := out |}
         else Raise ValueError
     end, after_session st 1 c).
Proof.
  intros Ho c. unfold user_choice_reply, bind.
  rewrite (self_options_ok _ _ _ Ho). unfold time_time, stdout. simpl.
  subst c. unfold choice_pipeline, after_session.
  destruct (replies (world st) _ _) as [out|]; [|reflexivity].
  set (st' := {| heap := heap st; world := _ |}).
  destruct (list_index_run (Options.choices o) (strip out) st')
    as [(Hin & i & Hi & ->) | (Hin & ->)]; rewrite Hin.
  - unfold ret. do 2 f_equal.
    destruct (Z.eqb_spec i (-1)); [lia | reflexivity].
  - reflexivity.
Qed.

(** [user_text_reply], two clock readings and one pipeline later. *)
Lemma user_text_reply_run (st : State) (self : loc) (o : Options.t) :
  config_of st self = Some o ->
  let c := text_pipeline o (clock (world st) (ticks (world st)))
                           (clock (world st) (S (ticks (world st)))) in
  user_text_reply self st =
    (match replies (world st) (length (evaluated (world st))) c with
     | None => Raise ExecError
     | Some out =>
         match re_compile (Options.match_ o) with
         | None => Raise ReError
         | Some r =>
             Ok {| Result.outcome :=
                     bool_decide (List.find (re_match_at r (strip out))
                                    (seq 0 (S (String.length (strip out)))) <> None);
                   Result.input := strip out |}
         end
     end, after_session st 2 c).
Proof.
  intros Ho c. unfold user_text_reply, bind.
  rewrite (self_options_ok _ _ _ Ho). unfold time_time, stdout. simpl.
  subst c. unfold text_pipeline, after_session.
  destruct (replies (world st) _ _) as [out|]; [|reflexivity].
  unfold re_search. destruct (re_compile (Options.match_ o)); reflexivity.
Qed.

(** [execute] in CI mode, as a function of the configuration. *)
Lemma execute_ci_run (st : State) (self : loc) (o : Options.t) :
  config_of st self = Some o -> Options.ci o = true ->
  execute self st =
    (if (0 <? length (Options.choices o))%nat
     then Ok {| Result.outcome := py_in (Options.input o) (Options.choices o);
                Result.input := Options.input o |}
     else match re_compile (Options.match_ o) with
          | None => Raise ReError
          | Some r =>
              Ok {| Result.outcome :=
                      bool_decide
                        (List.find (re_match_at r (Options.input o))
                           (seq 0 (S (String.length (Options.input o)))) <> None);
                    Result.input := Options.input o |}
          end, st).
Proof.
  intros Ho Hci. unfold execute, bind.
  rewrite (self_options_ok _ _ _ Ho), Hci.
  destruct (0 <? length (Options.choices o))%nat; [reflexivity|].
  unfold re_search. destruct (re_compile (Options.match_ o)); reflexivity.
Qed.

(** [execute] in attended mode dispatches on the emptiness of [choices]. *)
Lemma execute_attended_run (st : State) (self : loc) (o : Options.t) :
  config_of st self = Some o -> Options.ci o = false ->
  execute self st =
    if (0 <? length (Options.choices o))%nat
    then user_choice_reply self st else user_text_reply self st.
Proof.
  intros Ho Hci. unfold execute, bind.
  rewrite (self_options_ok _ _ _ Ho), Hci.
  now destruct (0 <? length (Options.choices o))%nat.
Qed.

Lemma nonempty_length (l : list string) : l <> [] -> (0 <? length l)%nat = true.
Proof. destruct l; [congruence | reflexivity]. Qed.

(** [re.search] finds something exactly when some offset matches. *)
Lemma find_offset (f : nat -> bool) (n : nat) :
  List.find f (seq 0 (S n)) <> None <-> exists pos, (pos <= n)%nat /\ f pos = true.
Proof.
  split.
  - destruct (List.find f (seq 0 (S n))) as [pos|] eqn:E; [|congruence].
    intros _. apply find_some in E as [Hin Hf]. apply in_seq in Hin.
    exists pos. split; [lia | exact Hf].
  - intros (pos & Hle & Hf) E.
    assert (f pos = false) as Hn
      by (apply (find_none _ _ E pos), in_seq; lia).
    congruence.
Qed.

End Runs.

(** ** CI mode *)

(** C1.  In CI mode with a non-empty [choices], [execute] returns a result
    and leaves the state alone; the outcome is true exactly when [input] is,
    character for character, one of the choices, and the result's input is
    the configured [input]. *)
Theorem execute_ci_choice_membership {FR : FloatRepr} {RE : PyRe}
    (st : State) (self : loc) (o : Options.t) :
  config_of st self = Some o ->
  Options.ci o = true ->
  Options.choices o <> [] ->
  exists r, execute self st = (Ok r, st) /\
            (Result.outcome r = true <-> In (Options.input o) (Options.choices o)) /\
            Result.input r = Options.input o.
Proof.
  intros Ho Hci Hne.
  rewrite (execute_ci_run st self o Ho Hci), (nonempty_length _ Hne).
  eexists. split; [reflexivity|]. simpl. split; [apply py_in_In | reflexivity].
Qed.

Lemma execute_ci_choice_membership_witness :
  exists r, execute 1 (one_prompt (ci_fruit "bear") (ticking_world []))
            = (Ok r, one_prompt (ci_fruit "bear") (ticking_world [])) /\
            (Result.outcome r = true <-> In "bear" fruit) /\
            Result.input r = "bear".
Proof.
  apply (execute_ci_choice_membership
           (one_prompt (ci_fruit "bear") (ticking_world [])) 1 (ci_fruit "bear"));
    [reflexivity | reflexivity | discriminate].
Defined.

(** C2.  In CI mode with an empty [choices] and a pattern that compiles,
    [execute] returns a result and leaves the state alone; the outcome is
    true exactly when the pattern matches at some offset of [input], from 0
    up to its length, and the result's input is the configured [input]. *)
Theorem execute_ci_pattern_search {FR : FloatRepr} {RE : PyRe}
    (st : State) (self : loc) (o : Options.t) (r : pattern) :
  config_of st self = Some o ->
  Options.ci o = true ->
  Options.choices o = [] ->
  re_compile (Options.match_ o) = Some r ->
  exists res, execute self st = (Ok res, st) /\
    (Result.outcome res = true <->
       exists pos, (pos <= String.length (Options.input o))%nat /\
                   re_match_at r (Options.input o) pos = true) /\
    Result.input res = Options.input o.
Proof.
  intros Ho Hci Hnil Hr.
  rewrite (execute_ci_run st self o Ho Hci), Hnil, Hr. simpl.
  eexists. split; [reflexivity|]. simpl. split; [|reflexivity].
  rewrite bool_decide_eq_true. apply find_offset.
Qed.

(** Pattern [y] on input [okay]: the only match starts at offset 3. *)
Lemma execute_ci_pattern_search_witness :
  (exists res, execute 1 (one_prompt (ci_pattern "y" "okay") (ticking_world []))
               = (Ok res, one_prompt (ci_pattern "y" "okay") (ticking_world [])) /\
     (Result.outcome res = true <->
        exists pos, (pos <= 4)%nat /\
                    simple_match_at [(ALit "y", QOne)] "okay" pos = true) /\
     Result.input res = "okay") /\
  fst (execute 1 (one_prompt (ci_pattern "y" "okay") (ticking_world [])))
    = Ok {| Result.outcome := true; Result.input := "okay" |} /\
  simple_match_at [(ALit "y", QOne)] "okay" 0 = false.
Proof.
  split; [|split; reflexivity].
  exact (execute_ci_pattern_search
           (one_prompt (ci_pattern "y" "okay") (ticking_world [])) 1
           (ci_pattern "y" "okay") [(ALit "y"%char, QOne)]
           eq_refl eq_refl eq_refl eq_refl).
Defined.

(** C7.  In CI mode with an empty [choices] and a pattern that does not
    compile, [execute] raises [re.error]: no result is returned. *)
Theorem execute_ci_invalid_pattern {FR : FloatRepr} {RE : PyRe}
    (st : State) (self : loc) (o : Options.t) :
  config_of st self = Some o ->
  Options.ci o = true ->
  Options.choices o = [] ->
  re_compile (Options.match_ o) = None ->
  execute self st = (Raise ReError, st) /\
  forall res st', execute self st <> (Ok res, st').
Proof.
  intros Ho Hci Hnil Hr.
  rewrite (execute_ci_run st self o Ho Hci), Hnil, Hr. simpl.
  split; [reflexivity | discriminate].
Qed.

Lemma execute_ci_invalid_pattern_witness :
  execute 1 (one_prompt (ci_pattern "(" "y") (ticking_world []))
    = (Raise ReError, one_prompt (ci_pattern "(" "y") (ticking_world [])) /\
  forall res st',
    execute 1 (one_prompt (ci_pattern "(" "y") (ticking_world [])) <> (Ok res, st').
Proof.
  exact (execute_ci_invalid_pattern
           (one_prompt (ci_pattern "(" "y") (ticking_world [])) 1
           (ci_pattern "(" "y") eq_refl eq_refl eq_refl eq_refl).
Defined.

(** C8.  In CI mode [execute] has no effect on the state, a second call
    returns what the first returned, and what it returns (a result or an
    exception) is the same for every prompt object, store and world that
    hold the same configuration. *)
Theorem execute_ci_idempotent {FR : FloatRepr} {RE : PyRe}
    (st : State) (self : loc) (o : Options.t) :
  config_of st self = Some o ->
  Options.ci o = true ->
  snd (execute self st) = st /\
  execute self (snd (execute self st)) = execute self st /\
  forall st' self', config_of st' self' = Some o ->
                    fst (execute self' st') = fst (execute self st).
Proof.
  intros Ho Hci.
  rewrite (execute_ci_run st self o Ho Hci). simpl.
  split; [reflexivity|]. split.
  - apply (execute_ci_run st self o Ho Hci).
  - intros st' self' Ho'. now rewrite (execute_ci_run st' self' o Ho' Hci).
Qed.

Lemma execute_ci_idempotent_witness :
  let st := one_prompt (ci_pattern "^y$" "no") (ticking_world []) in
  snd (execute 1 st) = st /\
  execute 1 (snd (execute 1 st)) = execute 1 st /\
  forall st' self', config_of st' self' = Some (ci_pattern "^y$" "no") ->
                    fst (execute self' st') = fst (execute 1 st).
Proof.
  exact (execute_ci_idempotent
           (one_prompt (ci_pattern "^y$" "no") (ticking_world [])) 1
           (ci_pattern "^y$" "no") eq_refl eq_refl).
Defined.

(** ** The setters *)

Lemma store_options_frame {FR : FloatRepr} (st : State) (p : loc) (o : Options.t) :
  h_options (heap (store_options st p o)) !! p = Some o /\
  (forall q, q <> p ->
             h_options (heap (store_options st p o)) !! q = h_options (heap st) !! q) /\
  h_prompts (heap (store_options st p o)) = h_prompts (heap st) /\
  world (store_options st p o) = world st.
Proof.
  simpl. split; [apply lookup_insert_eq|].
  split; [|split; reflexivity].
  intros q Hq. now apply lookup_insert_ne.
Qed.

Lemma setter_run {FR : FloatRepr} (st : State) (self : loc)
    (p : TerminalPrompt) (o : Options.t) (f : Options.t -> Options.t) :
  h_prompts (heap st) !! self = Some p ->
  h_options (heap st) !! options p = Some o ->
  bind (get_prompt self)
       (fun p => bind (update_options_at (options p) f) (fun _ => ret self)) st
  = (Ok self, store_options st (options p) (f o)).
Proof.
  intros Hp Ho. unfold bind, get_prompt, update_options_at. now rewrite Hp, Ho.
Qed.

(** C9.  On a prompt object [self] whose [options] field refers to an
    [Options] object holding [o], each of [with_ci], [with_msg],
    [with_input], [with_match] and [with_choices] returns [self] itself and
    leaves a state that differs only in that [Options] object, which holds
    [o] with the one field replaced by the argument. *)
Theorem setters_replace_one_field {FR : FloatRepr}
    (st : State) (self : loc) (p : TerminalPrompt) (o : Options.t)
    (b : bool) (s : string) (l : list string) :
  h_prompts (heap st) !! self = Some p ->
  h_options (heap st) !! options p = Some o ->
  with_ci self b st =
    (Ok self,
     store_options st (options p)
       {| Options.ci := b; Options.msg := Options.msg o;
          Options.input := Options.input o; Options.match_ := Options.match_ o;
          Options.choices := Options.choices o |}) /\
  with_msg self s st =
    (Ok self,
     store_options st (options p)
       {| Options.ci := Options.ci o; Options.msg := s;
          Options.input := Options.input o; Options.match_ := Options.match_ o;
          Options.choices := Options.choices o |}) /\
  with_input self s st =
    (Ok self,
     store_options st (options p)
       {| Options.ci := Options.ci o; Options.msg := Options.msg o;
          Options.input := s; Options.match_ := Options.match_ o;
          Options.choices := Options.choices o |}) /\
  with_match self s st =
    (Ok self,
     store_options st (options p)
       {| Options.ci := Options.ci o; Options.msg := Options.msg o;
          Options.input := Options.input o; Options.match_ := s;
          Options.choices := Options.choices o |}) /\
  with_choices self l st =
    (Ok self,
     store_options st (options p)
       {| Options.ci := Options.ci o; Options.msg := Options.msg o;
          Options.input := Options.input o; Options.match_ := Options.match_ o;
          Options.choices := l |}).
Proof.
  intros Hp Ho.
  unfold with_ci, with_msg, with_input, with_match, with_choices.
  repeat split; now rewrite (setter_run st self p o _ Hp Ho).
Qed.

Lemma setters_replace_one_field_witness :
  let st := one_prompt Options.default (ticking_world []) in
  with_ci 1 false st =
    (Ok 1%nat, store_options st 0
       {| Options.ci := false; Options.msg := "Continue? (y/n)";
          Options.input := "n"; Options.match_ := "y"; Options.choices := [] |}) /\
  with_msg 1 "Deploy?" st =
    (Ok 1%nat, store_options st 0
       {| Options.ci := true; Options.msg := "Deploy?";
          Options.input := "n"; Options.match_ := "y"; Options.choices := [] |}) /\
  with_input 1 "Deploy?" st =
    (Ok 1%nat, store_options st 0
       {| Options.ci := true; Options.msg := "Continue? (y/n)";
          Options.input := "Deploy?"; Options.match_ := "y"; Options.choices := [] |}) /\
  with_match 1 "Deploy?" st =
    (Ok 1%nat, store_options st 0
       {| Options.ci := true; Options.msg := "Continue? (y/n)";
          Options.input := "n"; Options.match_ := "Deploy?"; Options.choices := [] |}) /\
  with_choices 1 fruit st =
    (Ok 1%nat, store_options st 0
       {| Options.ci := true; Options.msg := "Continue? (y/n)";
          Options.input := "n"; Options.match_ := "y"; Options.choices := fruit |}).
Proof.
  exact (setters_replace_one_field
           (one_prompt Options.default (ticking_world [])) 1
           {| options := 0%nat |} Options.default false "Deploy?" fruit
           eq_refl eq_refl).
Defined.

(** ** A fresh prompt *)

(** C10.  [TerminalPrompt()] yields an object whose configuration is
    [ci = true], [msg = "Continue? (y/n)"], [input = "n"], [match = "y"],
    [choices = []]; [execute] on it returns outcome false with input ["n"]
    and changes nothing. *)
Theorem fresh_prompt_defaults {FR : FloatRepr} {RE : PyRe} (st : State) :
  exists self st1,
    new_TerminalPrompt st = (Ok self, st1) /\
    config_of st1 self =
      Some {| Options.ci := true; Options.msg := "Continue? (y/n)";
              Options.input := "n"; Options.match_ := "y";
              Options.choices := [] |} /\
    execute self st1 =
      (Ok {| Result.outcome := false; Result.input := "n" |}, st1).
Proof.
  eexists. eexists. split; [reflexivity|].
  assert (config_of (snd (new_TerminalPrompt st)) (S (h_next (heap st)))
          = Some Options.default) as Hc.
  { unfold config_of. simpl. rewrite lookup_insert_eq. simpl.
    apply lookup_insert_eq. }
  split; [exact Hc|].
  rewrite (execute_ci_run _ _ _ Hc eq_refl). simpl.
  destruct (re_compile_char "y" eq_refl) as (r & Hr & Hm).
  rewrite Hr. do 3 f_equal.
  apply bool_decide_eq_false. intros Hfind. apply Hfind. clear Hfind.
  destruct (re_match_at r "n" 0) eqn:E0.
  { apply Hm in E0. discriminate E0. }
  destruct (re_match_at r "n" 1) eqn:E1.
  { apply Hm in E1. discriminate E1. }
  reflexivity.
Qed.

(** A fresh prompt in a world of the reference runtime. *)
Lemma fresh_prompt_defaults_witness :
  exists self st1,
    new_TerminalPrompt (one_prompt attended_fruit (ticking_world []))
      = (Ok self, st1) /\
    config_of st1 self =
      Some {| Options.ci := true; Options.msg := "Continue? (y/n)";
              Options.input := "n"; Options.match_ := "y";
              Options.choices := [] |} /\
    execute self st1 =
      (Ok {| Result.outcome := false; Result.input := "n" |}, st1).
Proof.
  exact (fresh_prompt_defaults (one_prompt attended_fruit (ticking_world []))).
Defined.

(** ** Attended mode *)

Section Attended.

Context {FR : FloatRepr} {RE : PyRe}.

Lemma keys_after_session (st : State) (n : nat) (c : Container) :
  keys_presented (world (after_session st n c))
  = keys_presented (world st) ++ cache_keys c.
Proof.
  unfold keys_presented. simpl. rewrite flat_map_app. simpl.
  now rewrite app_nil_r.
Qed.

(** An attended [execute] touches the world only: the clock is read once or
    twice and one pipeline is evaluated. *)
Lemma execute_attended_state (st : State) (self : loc) (o : Options.t) :
  config_of st self = Some o -> Options.ci o = false ->
  snd (execute self st) =
    if (0 <? length (Options.choices o))%nat
    then after_session st 1
           (choice_pipeline o (clock (world st) (ticks (world st))))
    else after_session st 2
           (text_pipeline o (clock (world st) (ticks (world st)))
                            (clock (world st) (S (ticks (world st))))).
Proof.
  intros Ho Hci. rewrite (execute_attended_run st self o Ho Hci).
  destruct (0 <? length (Options.choices o))%nat.
  - now rewrite (user_choice_reply_run st self o Ho).
  - now rewrite (user_text_reply_run st self o Ho).
Qed.

Lemma execute_attended_key (st : State) (self : loc) (o : Options.t) :
  config_of st self = Some o -> Options.ci o = false ->
  keys_presented (world (snd (execute self st)))
  = keys_presented (world st)
    ++ [format_float (clock (world st) (key_tick o (world st)))].
Proof.
  intros Ho Hci. rewrite (execute_attended_state st self o Ho Hci).
  unfold key_tick.
  destruct (0 <? length (Options.choices o))%nat; apply keys_after_session.
Qed.

Lemma execute_attended_frame (st : State) (self : loc) (o : Options.t) :
  config_of st self = Some o -> Options.ci o = false ->
  heap (snd (execute self st)) = heap st /\
  clock (world (snd (execute self st))) = clock (world st).
Proof.
  intros Ho Hci. rewrite (execute_attended_state st self o Ho Hci).
  now destruct (0 <? length (Options.choices o))%nat.
Qed.

End Attended.

(** C3, where the code departs from the claim.  In attended choice mode,
    when the text read back is, once trimmed, none of the choices,
    [execute] raises [ValueError] out of [list.index]; it does not return a
    result whose outcome is false. *)
Theorem choice_session_unlisted_reply_raises {FR : FloatRepr} {RE : PyRe}
    (st : State) (self : loc) (o : Options.t) (out : string) :
  config_of st self = Some o ->
  Options.ci o = false ->
  Options.choices o <> [] ->
  replies (world st) (length (evaluated (world st)))
    (choice_pipeline o (clock (world st) (ticks (world st)))) = Some out ->
  ~ In (strip out) (Options.choices o) ->
  fst (execute self st) = Raise ValueError.
Proof.
  intros Ho Hci Hne Hout Hnin.
  rewrite (execute_attended_run st self o Ho Hci), (nonempty_length _ Hne).
  rewrite (user_choice_reply_run st self o Ho). simpl. rewrite Hout.
  destruct (py_in (strip out) (Options.choices o)) eqn:E; [|reflexivity].
  now apply py_in_In in E.
Qed.

(** The menu ends at end of input with nothing chosen, and the script writes
    a lone line feed. *)
Lemma choice_session_unlisted_reply_raises_witness :
  fst (execute 1 (one_prompt attended_fruit (ticking_world [nl])))
  = Raise ValueError.
Proof.
  apply (choice_session_unlisted_reply_raises
           (one_prompt attended_fruit (ticking_world [nl])) 1 attended_fruit nl);
    [reflexivity | reflexivity | discriminate | reflexivity |].
  vm_compute. intros [E|[E|[E|[]]]]; discriminate E.
Defined.

(** C6, where the code departs from the claim.  In attended choice mode,
    when the text read back is, once trimmed, one of the choices, the result
    carries outcome true and, as its input, the text exactly as it was read
    back: the trimming serves the lookup only. *)
Theorem choice_session_input_is_raw {FR : FloatRepr} {RE : PyRe}
    (st : State) (self : loc) (o : Options.t) (out : string) :
  config_of st self = Some o ->
  Options.ci o = false ->
  Options.choices o <> [] ->
  replies (world st) (length (evaluated (world st)))
    (choice_pipeline o (clock (world st) (ticks (world st)))) = Some out ->
  In (strip out) (Options.choices o) ->
  fst (execute self st) = Ok {| Result.outcome := true; Result.input := out |}.
Proof.
  intros Ho Hci Hne Hout Hin.
  rewrite (execute_attended_run st self o Ho Hci), (nonempty_length _ Hne).
  rewrite (user_choice_reply_run st self o Ho). simpl. rewrite Hout.
  apply py_in_In in Hin. now rewrite Hin.
Qed.

(** The human picks "orange"; [echo] ends the line it writes. *)
Lemma choice_session_input_is_raw_witness :
  fst (execute 1 (one_prompt attended_fruit (ticking_world ["orange" +:+ nl])))
  = Ok {| Result.outcome := true; Result.input := "orange" +:+ nl |} /\
  strip ("orange" +:+ nl) = "orange" /\
  "orange" +:+ nl <> "orange".
Proof.
  split; [|split; [reflexivity | discriminate]].
  apply (choice_session_input_is_raw
           (one_prompt attended_fruit (ticking_world ["orange" +:+ nl])) 1
           attended_fruit ("orange" +:+ nl));
    [reflexivity | reflexivity | discriminate | reflexivity |].
  vm_compute. right. right. left. reflexivity.
Defined.

(** C5, where the code departs from the claim.  A free-text session reads
    the clock twice.  The pipeline it evaluates mounts the cache under the
    rendering of the second reading, while its marker command carries the
    rendering of the first; the marker is the one built from the cache key
    only when the two readings are equal. *)
Theorem text_session_marker_and_key {FR : FloatRepr} {RE : PyRe}
    (st : State) (self : loc) (o : Options.t) :
  config_of st self = Some o ->
  Options.ci o = false ->
  Options.choices o = [] ->
  let t := clock (world st) (ticks (world st)) in
  let t' := clock (world st) (S (ticks (world st))) in
  exists c,
    evaluated (world (snd (execute self st))) = evaluated (world st) ++ [c] /\
    cache_keys c = [format_float t'] /\
    exec_args c = [marker_cmd (format_float t); ["cat"; "/tmp/prompt/input"]] /\
    (marker_cmd (format_float t) = marker_cmd (format_float t') <-> t = t').
Proof.
  intros Ho Hci Hnil t t'.
  exists (text_pipeline o t t').
  rewrite (execute_attended_state st self o Ho Hci), Hnil. simpl.
  repeat split.
  - intros E. unfold marker_cmd in E. injection E as E.
    change (format_float t +:+ " && exit 0" = format_float t' +:+ " && exit 0") in E.
    apply string_app_inj_r in E. now apply format_float_inj.
  - now intros ->.
Qed.

Lemma text_session_marker_and_key_witness :
  let st := one_prompt attended_text (ticking_world ["yes" +:+ nl]) in
  (exists c,
    evaluated (world (snd (execute 1 st))) = [] ++ [c] /\
    cache_keys c = ["1700000001.0"] /\
    exec_args c = [["sh"; "-c"; ": 1700000000.0 && exit 0"];
                   ["cat"; "/tmp/prompt/input"]] /\
    (marker_cmd "1700000000.0" = marker_cmd "1700000001.0"
     <-> 1700000000%N = 1700000001%N)) /\
  occurs_in "1700000001.0" ": 1700000000.0 && exit 0" = false.
Proof.
  split; [|reflexivity].
  exact (text_session_marker_and_key
           (one_prompt attended_text (ticking_world ["yes" +:+ nl])) 1
           attended_text eq_refl eq_refl eq_refl).
Defined.

(** C4 as stated fails: under a clock that reads the same second twice, two
    sessions that read back two different answers present the same cache
    key. *)
Lemma attended_keys_repeat_on_equal_readings :
  let st := one_prompt attended_fruit
              (frozen_world ["apple" +:+ nl; "orange" +:+ nl]) in
  let st1 := snd (execute 1 st) in
  let st2 := snd (execute 1 st1) in
  fst (execute 1 st)
    = Ok {| Result.outcome := true; Result.input := "apple" +:+ nl |} /\
  fst (execute 1 st1)
    = Ok {| Result.outcome := true; Result.input := "orange" +:+ nl |} /\
  keys_presented (world st2) = ["1700000000.0"; "1700000000.0"] /\
  ~ NoDup (keys_presented (world st2)).
Proof.
  assert (keys_presented
            (world (snd (execute 1 (snd (execute 1
               (one_prompt attended_fruit
                  (frozen_world ["apple" +:+ nl; "orange" +:+ nl])))))))
          = ["1700000000.0"; "1700000000.0"]) as K by (vm_compute; reflexivity).
  cbv zeta. rewrite K.
  split; [vm_compute; reflexivity|]. split; [vm_compute; reflexivity|].
  split; [reflexivity|].
  intros H. apply NoDup_cons in H as [H _]. apply H. now left.
Qed.

(** C4, amended.  An attended [execute] presents exactly one cache key, the
    rendering of a clock reading taken during that call: its first reading
    in choice mode, its second in free-text mode.  After two attended calls
    the engine has seen those two keys, in order, and they are distinct
    exactly when the two readings differ. *)
Theorem attended_keys_follow_clock {FR : FloatRepr} {RE : PyRe}
    (st : State) (self1 self2 : loc) (o1 o2 : Options.t) :
  config_of st self1 = Some o1 ->
  config_of st self2 = Some o2 ->
  Options.ci o1 = false ->
  Options.ci o2 = false ->
  let st1 := snd (execute self1 st) in
  let st2 := snd (execute self2 st1) in
  let t1 := clock (world st) (key_tick o1 (world st)) in
  let t2 := clock (world st) (key_tick o2 (world st1)) in
  keys_presented (world st2)
    = keys_presented (world st) ++ [format_float t1; format_float t2] /\
  (format_float t1 <> format_float t2 <-> t1 <> t2).
Proof.
  intros H1 H2 Hci1 Hci2 st1 st2 t1 t2.
  destruct (execute_attended_frame st self1 o1 H1 Hci1) as [Hheap Hclock].
  assert (config_of st1 self2 = Some o2) as H2'.
  { unfold config_of. subst st1. rewrite Hheap. exact H2. }
  split.
  - subst st2. rewrite (execute_attended_key st1 self2 o2 H2' Hci2).
    subst st1. rewrite (execute_attended_key st self1 o1 H1 Hci1), Hclock.
    now rewrite <- app_assoc.
  - split; intros Hne E; apply Hne.
    + now rewrite E.
    + now apply format_float_inj.
Qed.

Lemma attended_keys_follow_clock_witness :
  let st := one_prompt attended_fruit
              (ticking_world ["apple" +:+ nl; "orange" +:+ nl]) in
  keys_presented (world (snd (execute 1 (snd (execute 1 st)))))
    = [] ++ ["1700000000.0"; "1700000001.0"] /\
  ("1700000000.0" <> "1700000001.0" <-> 1700000000%N <> 1700000001%N).
Proof.
  exact (attended_keys_follow_clock
           (one_prompt attended_fruit
              (ticking_world ["apple" +:+ nl; "orange" +:+ nl]))
           1 1 attended_fruit attended_fruit eq_refl eq_refl eq_refl eq_refl).
Defined.

(** ** Further properties of the sessions and of [with_options] *)

(** In attended free-text mode, when the engine reads back [out] and the
    pattern compiles, the result's input is [out] trimmed and its outcome is
    true exactly when the pattern matches at some offset of the trimmed
    text. *)
Theorem text_session_result {FR : FloatRepr} {RE : PyRe}
    (st : State) (self : loc) (o : Options.t) (out : string) (r : pattern) :
  config_of st self = Some o ->
  Options.ci o = false ->
  Options.choices o = [] ->
  replies (world st) (length (evaluated (world st)))
    (session_pipeline o (world st)) = Some out ->
  re_compile (Options.match_ o) = Some r ->
  exists res,
    fst (execute self st) = Ok res /\
    Result.input res = strip out /\
    (Result.outcome res = true <->
       exists pos, (pos <= String.length (strip out))%nat /\
                   re_match_at r (strip out) pos = true).
Proof.
  intros Ho Hci Hnil Hout Hr. unfold session_pipeline in Hout.
  rewrite (execute_attended_run st self o Ho Hci).
  rewrite Hnil in *. simpl in Hout |- *.
  rewrite (user_text_reply_run st self o Ho). simpl. rewrite Hout, Hr.
  eexists. split; [reflexivity|]. simpl. split; [reflexivity|].
  rewrite bool_decide_eq_true. apply find_offset.
Qed.

Lemma text_session_result_witness :
  let st := one_prompt attended_text (ticking_world ["  yes " +:+ nl]) in
  exists res,
    fst (execute 1 st) = Ok res /\
    Result.input res = "yes" /\
    (Result.outcome res = true <->
       exists pos, (pos <= 3)%nat /\
                   simple_match_at [(ALit "y", QOne)] "yes" pos = true).
Proof.
  exact (text_session_result
           (one_prompt attended_text (ticking_world ["  yes " +:+ nl])) 1
           attended_text ("  yes " +:+ nl) [(ALit "y"%char, QOne)]
           eq_refl eq_refl eq_refl eq_refl eq_refl).
Defined.

(** In attended mode a fault of the engine surfaces as an exception: no
    result is returned, in either answer shape. *)
Theorem attended_fault_propagates {FR : FloatRepr} {RE : PyRe}
    (st : State) (self : loc) (o : Options.t) :
  config_of st self = Some o ->
  Options.ci o = false ->
  replies (world st) (length (evaluated (world st)))
    (session_pipeline o (world st)) = None ->
  fst (execute self st) = Raise ExecError.
Proof.
  intros Ho Hci Hout. unfold session_pipeline in Hout.
  rewrite (execute_attended_run st self o Ho Hci).
  destruct (0 <? length (Options.choices o))%nat.
  - rewrite (user_choice_reply_run st self o Ho). simpl. now rewrite Hout.
  - rewrite (user_text_reply_run st self o Ho). simpl. now rewrite Hout.
Qed.

(** The human interrupts: nothing was written, the read-back fails. *)
Lemma attended_fault_propagates_witness :
  fst (execute 1 (one_prompt attended_fruit (ticking_world []))) = Raise ExecError.
Proof.
  exact (attended_fault_propagates
           (one_prompt attended_fruit (ticking_world [])) 1 attended_fruit
           eq_refl eq_refl eq_refl).
Defined.

(** In attended choice mode every result that [execute] returns has outcome
    true. *)
Theorem choice_session_outcome_never_false {FR : FloatRepr} {RE : PyRe}
    (st : State) (self : loc) (o : Options.t) :
  config_of st self = Some o ->
  Options.ci o = false ->
  Options.choices o <> [] ->
  forall res st', execute self st = (Ok res, st') -> Result.outcome res = true.
Proof.
  intros Ho Hci Hne res st'.
  rewrite (execute_attended_run st self o Ho Hci), (nonempty_length _ Hne).
  rewrite (user_choice_reply_run st self o Ho).
  destruct (replies (world st) _ _) as [out|]; [|discriminate].
  destruct (py_in (strip out) (Options.choices o)); [|discriminate].
  now intros [= <- _].
Qed.

Lemma choice_session_outcome_never_false_witness :
  fst (execute 1 (one_prompt attended_fruit (ticking_world ["bear" +:+ nl])))
    = Ok {| Result.outcome := true; Result.input := "bear" +:+ nl |} /\
  forall res st',
    execute 1 (one_prompt attended_fruit (ticking_world ["bear" +:+ nl]))
      = (Ok res, st') ->
    Result.outcome res = true.
Proof.
  split; [reflexivity|].
  apply (choice_session_outcome_never_false
           (one_prompt attended_fruit (ticking_world ["bear" +:+ nl])) 1
           attended_fruit); [reflexivity | reflexivity | discriminate].
Defined.

(** The four CI scenarios, run on the reference engine: "bear" and "kiwi"
    against the fruit choices, pattern [y] on "yes", pattern [^y$] on "no". *)
Example ci_scenarios :
  fst (execute 1 (one_prompt (ci_fruit "bear") (ticking_world [])))
    = Ok {| Result.outcome := true; Result.input := "bear" |} /\
  fst (execute 1 (one_prompt (ci_fruit "kiwi") (ticking_world [])))
    = Ok {| Result.outcome := false; Result.input := "kiwi" |} /\
  fst (execute 1 (one_prompt (ci_pattern "y" "yes") (ticking_world [])))
    = Ok {| Result.outcome := true; Result.input := "yes" |} /\
  fst (execute 1 (one_prompt (ci_pattern "^y$" "no") (ticking_world [])))
    = Ok {| Result.outcome := false; Result.input := "no" |}.
Proof. repeat split; vm_compute; reflexivity. Qed.

(** ** Trimming *)

Lemma lstrip_first (s : string) : space_at (first_char (lstrip s)) = false.
Proof.
  induction s as [|c s IH]; simpl; [reflexivity|].
  destruct (py_isspace c) eqn:E; [exact IH | simpl; exact E].
Qed.

Lemma lstrip_fixed (s : string) :
  space_at (first_char s) = false -> lstrip s = s.
Proof. destruct s as [|c s]; simpl; [reflexivity | now intros ->]. Qed.

Lemma rstrip_first (s : string) :
  space_at (first_char s) = false -> space_at (first_char (rstrip s)) = false.
Proof.
  destruct s as [|c s]; simpl; [reflexivity|]. intros E.
  destruct (rstrip s); [now rewrite E | exact E].
Qed.

Lemma rstrip_last (s : string) : space_at (last_char (rstrip s)) = false.
Proof.
  induction s as [|c s IH]; simpl; [reflexivity|].
  destruct (rstrip s) as [|d r] eqn:R.
  - destruct (py_isspace c) eqn:E; simpl; [reflexivity | exact E].
  - exact IH.
Qed.

Lemma rstrip_fixed (s : string) :
  space_at (last_char s) = false -> rstrip s = s.
Proof.
  induction s as [|c s IH]; simpl; [reflexivity|].
  destruct s as [|d s'].
  - simpl. now intros ->.
  - intros E. rewrite (IH E). reflexivity.
Qed.

Lemma strip_trimmed (s : string) : trimmed (strip s) = true.
Proof.
  unfold trimmed, strip.
  now rewrite (rstrip_first _ (lstrip_first s)), rstrip_last.
Qed.

Lemma strip_fixed (s : string) : trimmed s = true -> strip s = s.
Proof.
  unfold trimmed, strip. intros E. apply andb_prop in E as [E1 E2].
  apply negb_true_iff in E1, E2.
  now rewrite (lstrip_fixed s E1), (rstrip_fixed s E2).
Qed.

Lemma strip_idempotent (s : string) : strip (strip s) = strip s.
Proof. apply strip_fixed, strip_trimmed. Qed.

(** ** What [execute] touches *)

Lemma self_options_dangling {FR : FloatRepr} (st : State) (self : loc) :
  config_of st self = None -> self_options self st = (Raise DanglingRef, st).
Proof.
  unfold config_of, self_options, bind, get_prompt, get_options_at.
  destruct (h_prompts (heap st) !! self) as [p|]; [|reflexivity].
  now intros ->.
Qed.

(** [execute] never writes to the store: whatever the mode and whatever the
    outcome (a result or any exception), every object holds afterwards what
    it held before. *)
Theorem execute_never_writes_store {FR : FloatRepr} {RE : PyRe}
    (st : State) (self : loc) :
  heap (snd (execute self st)) = heap st.
Proof.
  destruct (config_of st self) as [o|] eqn:Ho.
  - destruct (Options.ci o) eqn:Hci.
    + now rewrite (execute_ci_run st self o Ho Hci).
    + apply (execute_attended_frame st self o Ho Hci).
  - unfold execute, bind. now rewrite (self_options_dangling st self Ho).
Qed.

(** An attended [execute] holds exactly one session, whatever comes of it:
    the engine is asked to evaluate one pipeline, the one built from the
    configuration and the clock, and the clock is read once in choice mode
    and twice in free-text mode. *)
Theorem attended_execute_one_session {FR : FloatRepr} {RE : PyRe}
    (st : State) (self : loc) (o : Options.t) :
  config_of st self = Some o ->
  Options.ci o = false ->
  evaluated (world (snd (execute self st)))
    = evaluated (world st) ++ [session_pipeline o (world st)] /\
  ticks (world (snd (execute self st)))
    = ((if (0 <? length (Options.choices o))%nat then 1 else 2)
       + ticks (world st))%nat.
Proof.
  intros Ho Hci. rewrite (execute_attended_state st self o Ho Hci).
  unfold session_pipeline.
  now destruct (0 <? length (Options.choices o))%nat.
Qed.

Lemma attended_execute_one_session_witness :
  let st := one_prompt attended_fruit (ticking_world []) in
  evaluated (world (snd (execute 1 st)))
    = [] ++ [session_pipeline attended_fruit (ticking_world [])] /\
  ticks (world (snd (execute 1 st))) = (1 + 0)%nat.
Proof.
  exact (attended_execute_one_session
           (one_prompt attended_fruit (ticking_world [])) 1 attended_fruit
           eq_refl eq_refl).
Defined.

Lemma execute_frame_run {FR : FloatRepr} {RE : PyRe}
    (st st' : State) (self self' : loc) (o : Options.t) :
  config_of st self = Some o ->
  config_of st' self' = Some o ->
  world st = world st' ->
  fst (execute self st) = fst (execute self' st') /\
  world (snd (execute self st)) = world (snd (execute self' st')).
Proof.
  intros Ho Ho' Hw. destruct (Options.ci o) eqn:Hci.
  - rewrite (execute_ci_run st self o Ho Hci), (execute_ci_run st' self' o Ho' Hci).
    simpl. split; [reflexivity | exact Hw].
  - rewrite (execute_attended_run st self o Ho Hci),
            (execute_attended_run st' self' o Ho' Hci).
    destruct (0 <? length (Options.choices o))%nat.
    + rewrite (user_choice_reply_run st self o Ho),
              (user_choice_reply_run st' self' o Ho').
      simpl. now rewrite Hw.
    + rewrite (user_text_reply_run st self o Ho),
              (user_text_reply_run st' self' o Ho').
      simpl. now rewrite Hw.
Qed.

(** What [execute] returns, and the world it leaves, are settled by the
    configuration and the world it starts from: the prompt object and the
    rest of the store play no part, in CI mode and in attended mode alike. *)
Theorem execute_depends_on_config_and_world {FR : FloatRepr} {RE : PyRe}
    (st st' : State) (self self' : loc) (o : Options.t) :
  config_of st self = Some o ->
  config_of st' self' = Some o ->
  world st = world st' ->
  fst (execute self st) = fst (execute self' st') /\
  world (snd (execute self st)) = world (snd (execute self' st')).
Proof. apply execute_frame_run. Qed.

(** Two stores, one world: the prompt at location 1, and a second prompt at
    location 3 of a larger store. *)
Lemma execute_depends_on_config_and_world_witness :
  let st := one_prompt attended_text (ticking_world ["yes" +:+ nl]) in
  let st' := store_options
               {| heap := {| h_options := {[ 2%nat := attended_text ]};
                             h_prompts := {[ 3%nat := {| options := 2%nat |} ]};
                             h_next := 4 |};
                  world := ticking_world ["yes" +:+ nl] |}
               7 (ci_fruit "bear") in
  fst (execute 1 st) = fst (execute 3 st') /\
  world (snd (execute 1 st)) = world (snd (execute 3 st')).
Proof.
  exact (execute_depends_on_config_and_world
           (one_prompt attended_text (ticking_world ["yes" +:+ nl]))
           (store_options
               {| heap := {| h_options := {[ 2%nat := attended_text ]};
                             h_prompts := {[ 3%nat := {| options := 2%nat |} ]};
                             h_next := 4 |};
                  world := ticking_world ["yes" +:+ nl] |}
               7 (ci_fruit "bear"))
           1 3 attended_text eq_refl eq_refl eq_refl).
Defined.

(** ** More on the sessions *)

(** In a choice session the marker command carries the very token under
    which the cache is mounted: both come from the single clock reading of
    the call. *)
Theorem choice_session_marker_is_key {FR : FloatRepr} {RE : PyRe}
    (st : State) (self : loc) (o : Options.t) :
  config_of st self = Some o ->
  Options.ci o = false ->
  Options.choices o <> [] ->
  exists c k,
    evaluated (world (snd (execute self st))) = evaluated (world st) ++ [c] /\
    k = format_float (clock (world st) (ticks (world st))) /\
    cache_keys c = [k] /\
    exec_args c = [marker_cmd k; ["cat"; "/tmp/prompt/input"]].
Proof.
  intros Ho Hci Hne.
  rewrite (execute_attended_state st self o Ho Hci), (nonempty_length _ Hne).
  eexists. eexists. repeat split.
Qed.

Lemma choice_session_marker_is_key_witness :
  let st := one_prompt attended_fruit (ticking_world ["bear" +:+ nl]) in
  exists c k,
    evaluated (world (snd (execute 1 st))) = [] ++ [c] /\
    k = "1700000000.0" /\
    cache_keys c = [k] /\
    exec_args c = [marker_cmd k; ["cat"; "/tmp/prompt/input"]].
Proof.
  exact (choice_session_marker_is_key
           (one_prompt attended_fruit (ticking_world ["bear" +:+ nl])) 1
           attended_fruit eq_refl eq_refl
           (fun E : fruit = [] =>
              eq_ind fruit (fun l => match l with [] => False | _ => True end)
                     I [] E)).
Defined.

(** In attended free-text mode a pattern that does not compile is found out
    only after the session: the pipeline has been evaluated and the human has
    answered when [re.error] is raised. *)
Theorem text_session_invalid_pattern_after_session {FR : FloatRepr} {RE : PyRe}
    (st : State) (self : loc) (o : Options.t) (out : string) :
  config_of st self = Some o ->
  Options.ci o = false ->
  Options.choices o = [] ->
  replies (world st) (length (evaluated (world st)))
    (session_pipeline o (world st)) = Some out ->
  re_compile (Options.match_ o) = None ->
  fst (execute self st) = Raise ReError /\
  evaluated (world (snd (execute self st)))
    = evaluated (world st) ++ [session_pipeline o (world st)].
Proof.
  intros Ho Hci Hnil Hout Hr.
  split.
  - unfold session_pipeline in Hout.
    rewrite (execute_attended_run st self o Ho Hci).
    rewrite Hnil in *. simpl in Hout |- *.
    rewrite (user_text_reply_run st self o Ho). simpl. now rewrite Hout, Hr.
  - rewrite (execute_attended_state st self o Ho Hci).
    unfold session_pipeline. now rewrite Hnil.
Qed.

Lemma text_session_invalid_pattern_after_session_witness :
  let st := one_prompt attended_invalid_pattern (ticking_world ["yes" +:+ nl]) in
  fst (execute 1 st) = Raise ReError /\
  evaluated (world (snd (execute 1 st)))
    = [] ++ [session_pipeline attended_invalid_pattern
               (ticking_world ["yes" +:+ nl])].
Proof.
  exact (text_session_invalid_pattern_after_session
           (one_prompt attended_invalid_pattern (ticking_world ["yes" +:+ nl]))
           1 attended_invalid_pattern ("yes" +:+ nl)
           eq_refl eq_refl eq_refl eq_refl eq_refl).
Defined.

(** In CI mode, with no choices and a pattern that is one ordinary
    character, the outcome tells whether that character occurs somewhere in
    [input].  The default pattern [y] is of this kind. *)
Theorem execute_ci_single_char_pattern {FR : FloatRepr} {RE : PyRe}
    (st : State) (self : loc) (o : Options.t) (c : ascii) :
  config_of st self = Some o ->
  Options.ci o = true ->
  Options.choices o = [] ->
  Options.match_ o = String c EmptyString ->
  re_special c = false ->
  exists res, execute self st = (Ok res, st) /\
    (Result.outcome res = true <->
       exists pos, String.get pos (Options.input o) = Some c) /\
    Result.input res = Options.input o.
Proof.
  intros Ho Hci Hnil Hm Hc.
  destruct (re_compile_char c Hc) as (r & Hr & Hget).
  rewrite (execute_ci_run st self o Ho Hci), Hnil, Hm, Hr. simpl.
  eexists. split; [reflexivity|]. simpl. split; [|reflexivity].
  rewrite bool_decide_eq_true.
  etransitivity; [apply find_offset|]. split.
  - intros (pos & _ & E). exists pos. now apply Hget.
  - intros (pos & E). exists pos. split; [|now apply Hget].
    clear -E. revert pos E.
    induction (Options.input o) as [|d s IH]; intros pos E; [discriminate|].
    destruct pos as [|pos]; simpl in *; [lia|].
    apply IH in E. lia.
Qed.

(** With the default pattern, the input "nay" is an approval. *)
Lemma execute_ci_single_char_pattern_witness :
  (exists res,
     execute 1 (one_prompt (ci_pattern "y" "nay") (ticking_world []))
       = (Ok res, one_prompt (ci_pattern "y" "nay") (ticking_world [])) /\
     (Result.outcome res = true <-> exists pos, String.get pos "nay" = Some "y"%char) /\
     Result.input res = "nay") /\
  String.get 2 "nay" = Some "y"%char.
Proof.
  split; [|reflexivity].
  exact (execute_ci_single_char_pattern
           (one_prompt (ci_pattern "y" "nay") (ticking_world [])) 1
           (ci_pattern "y" "nay") "y"%char
           eq_refl eq_refl eq_refl eq_refl eq_refl).
Defined.

(** The two modes agree in the free-text shape: an attended session that
    reads back [out] answers as CI mode does on the same pattern with
    [input] set to [out] trimmed, a result or [re.error] alike. *)
Theorem attended_text_agrees_with_ci {FR : FloatRepr} {RE : PyRe}
    (st st' : State) (self self' : loc) (o : Options.t) (out : string) :
  config_of st self = Some o ->
  Options.ci o = false ->
  Options.choices o = [] ->
  replies (world st) (length (evaluated (world st)))
    (session_pipeline o (world st)) = Some out ->
  config_of st' self' =
    Some {| Options.ci := true; Options.msg := Options.msg o;
            Options.input := strip out; Options.match_ := Options.match_ o;
            Options.choices := [] |} ->
  fst (execute self st) = fst (execute self' st').
Proof.
  intros Ho Hci Hnil Hout Ho'. unfold session_pipeline in Hout.
  rewrite (execute_attended_run st self o Ho Hci).
  rewrite (execute_ci_run st' self' _ Ho' eq_refl).
  rewrite Hnil in *. simpl in Hout |- *.
  rewrite (user_text_reply_run st self o Ho). simpl. now rewrite Hout.
Qed.

Lemma attended_text_agrees_with_ci_witness :
  fst (execute 1 (one_prompt attended_text (ticking_world ["  yes " +:+ nl])))
  = fst (execute 1 (one_prompt (ci_pattern "y" "yes") (ticking_world []))).
Proof.
  exact (attended_text_agrees_with_ci
           (one_prompt attended_text (ticking_world ["  yes " +:+ nl]))
           (one_prompt (ci_pattern "y" "yes") (ticking_world []))
           1 1 attended_text ("  yes " +:+ nl)
           eq_refl eq_refl eq_refl eq_refl eq_refl).
Defined.

(** The input of a result returned by a free-text session never begins or
    ends with whitespace. *)
Theorem text_session_input_trimmed {FR : FloatRepr} {RE : PyRe}
    (st : State) (self : loc) (o : Options.t) :
  config_of st self = Some o ->
  Options.ci o = false ->
  Options.choices o = [] ->
  forall res st', execute self st = (Ok res, st') ->
                  trimmed (Result.input res) = true.
Proof.
  intros Ho Hci Hnil res st'.
  rewrite (execute_attended_run st self o Ho Hci), Hnil. simpl.
  rewrite (user_text_reply_run st self o Ho).
  destruct (replies (world st) _ _) as [out|]; [|discriminate].
  destruct (re_compile (Options.match_ o)); [|discriminate].
  intros [= <- _]. apply strip_trimmed.
Qed.

Lemma text_session_input_trimmed_witness :
  fst (execute 1 (one_prompt attended_text (ticking_world ["  yes " +:+ nl])))
    = Ok {| Result.outcome := true; Result.input := "yes" |} /\
  forall res st',
    execute 1 (one_prompt attended_text (ticking_world ["  yes " +:+ nl]))
      = (Ok res, st') ->
    trimmed (Result.input res) = true.
Proof.
  split; [reflexivity|].
  exact (text_session_input_trimmed
           (one_prompt attended_text (ticking_world ["  yes " +:+ nl])) 1
           attended_text eq_refl eq_refl eq_refl).
Defined.

(** A choice session can only return a result for a reply that, once
    trimmed, is a choice free of surrounding whitespace.  A choice that
    begins or ends with whitespace is therefore never the one selected, and
    when every choice is of that kind the session returns no result at
    all. *)
Theorem choice_session_selects_trimmed_choice {FR : FloatRepr} {RE : PyRe}
    (st : State) (self : loc) (o : Options.t) :
  config_of st self = Some o ->
  Options.ci o = false ->
  Options.choices o <> [] ->
  (forall res st', execute self st = (Ok res, st') ->
     In (strip (Result.input res)) (Options.choices o) /\
     trimmed (strip (Result.input res)) = true) /\
  ((forall c, In c (Options.choices o) -> trimmed c = false) ->
   forall res st', execute self st <> (Ok res, st')).
Proof.
  intros Ho Hci Hne.
  assert (forall res st', execute self st = (Ok res, st') ->
            In (strip (Result.input res)) (Options.choices o) /\
            trimmed (strip (Result.input res)) = true) as H.
  { intros res st'.
    rewrite (execute_attended_run st self o Ho Hci), (nonempty_length _ Hne).
    rewrite (user_choice_reply_run st self o Ho).
    destruct (replies (world st) _ _) as [out|]; [|discriminate].
    destruct (py_in (strip out) (Options.choices o)) eqn:E; [|discriminate].
    intros [= <- _]. simpl. split; [now apply py_in_In | apply strip_trimmed]. }
  split; [exact H|].
  intros Hall res st' E. destruct (H res st' E) as [Hin Ht].
  rewrite (Hall _ Hin) in Ht. discriminate.
Qed.

(** The one choice " yes" begins with a space: picking it from the menu
    raises. *)
Lemma choice_session_selects_trimmed_choice_witness :
  let st := one_prompt attended_padded_choice (ticking_world [" yes" +:+ nl]) in
  ((forall res st', execute 1 st = (Ok res, st') ->
      In (strip (Result.input res)) [" yes"] /\
      trimmed (strip (Result.input res)) = true) /\
   ((forall c, In c [" yes"] -> trimmed c = false) ->
    forall res st', execute 1 st <> (Ok res, st'))) /\
  fst (execute 1 st) = Raise ValueError.
Proof.
  split; [|reflexivity].
  apply (choice_session_selects_trimmed_choice
           (one_prompt attended_padded_choice (ticking_world [" yes" +:+ nl]))
           1 attended_padded_choice);
    [reflexivity | reflexivity | discriminate].
Defined.

(** ** How the setters compose *)

Section Chains.

Context {FR : FloatRepr}.

Lemma bind_ok {A B : Type} (m : M A) (k : A -> M B) (st st' : State) (a : A) :
  m st = (Ok a, st') -> bind m k st = k a st'.
Proof. unfold bind. now intros ->. Qed.

Lemma store_options_twice (st : State) (p : loc) (o1 o2 : Options.t) :
  store_options (store_options st p o1) p o2 = store_options st p o2.
Proof. unfold store_options. simpl. now rewrite insert_insert_eq. Qed.

(** Two assignments through [self], one after the other. *)
Lemma setter_then (st : State) (self : loc) (p : TerminalPrompt)
    (o : Options.t) (f g : Options.t -> Options.t) :
  h_prompts (heap st) !! self = Some p ->
  h_options (heap st) !! options p = Some o ->
  bind (bind (get_prompt self)
          (fun p => bind (update_options_at (options p) f) (fun _ => ret self)))
       (fun q => bind (get_prompt q)
          (fun p => bind (update_options_at (options p) g) (fun _ => ret q))) st
  = (Ok self, store_options st (options p) (g (f o))).
Proof.
  intros Hp Ho.
  rewrite (bind_ok _ _ _ _ _ (setter_run st self p o f Hp Ho)).
  rewrite (setter_run (store_options st (options p) (f o)) self p (f o) g).
  - now rewrite store_options_twice.
  - exact Hp.
  - simpl. apply lookup_insert_eq.
Qed.

End Chains.

Ltac setter_pair Hp Ho :=
  unfold with_ci, with_msg, with_input, with_match, with_choices;
  rewrite !(setter_then _ _ _ _ _ _ Hp Ho); reflexivity.

(** Calling one setter twice in a chain leaves what the second call alone
    would leave: the later value wins and nothing else differs. *)
Theorem setter_last_write_wins {FR : FloatRepr}
    (st : State) (self : loc) (p : TerminalPrompt) (o : Options.t)
    (b b' : bool) (s s' : string) (l l' : list string) :
  h_prompts (heap st) !! self = Some p ->
  h_options (heap st) !! options p = Some o ->
  (let* q := with_ci self b in with_ci q b') st = with_ci self b' st /\
  (let* q := with_msg self s in with_msg q s') st = with_msg self s' st /\
  (let* q := with_input self s in with_input q s') st = with_input self s' st /\
  (let* q := with_match self s in with_match q s') st = with_match self s' st /\
  (let* q := with_choices self l in with_choices q l') st = with_choices self l' st.
Proof.
  intros Hp Ho.
  repeat split;
    unfold with_ci, with_msg, with_input, with_match, with_choices;
    rewrite (setter_then _ _ _ _ _ _ Hp Ho), (setter_run _ _ _ _ _ Hp Ho);
    reflexivity.
Qed.

Lemma setter_last_write_wins_witness :
  let st := one_prompt Options.default (ticking_world []) in
  (let* q := with_ci 1 false in with_ci q true) st = with_ci 1 true st /\
  (let* q := with_msg 1 "a" in with_msg q "b") st = with_msg 1 "b" st /\
  (let* q := with_input 1 "a" in with_input q "b") st = with_input 1 "b" st /\
  (let* q := with_match 1 "a" in with_match q "b") st = with_match 1 "b" st /\
  (let* q := with_choices 1 fruit in with_choices q []) st = with_choices 1 [] st.
Proof.
  exact (setter_last_write_wins
           (one_prompt Options.default (ticking_world [])) 1
           {| options := 0%nat |} Options.default
           false true "a" "b" fruit [] eq_refl eq_refl).
Defined.

(** Setters of different fields commute: chained in either order they
    return the same object and leave the same state. *)
Theorem setters_commute {FR : FloatRepr}
    (st : State) (self : loc) (p : TerminalPrompt) (o : Options.t)
    (b : bool) (m i r : string) (l : list string) :
  h_prompts (heap st) !! self = Some p ->
  h_options (heap st) !! options p = Some o ->
  (let* q := with_ci self b in with_msg q m) st
    = (let* q := with_msg self m in with_ci q b) st /\
  (let* q := with_ci self b in with_input q i) st
    = (let* q := with_input self i in with_ci q b) st /\
  (let* q := with_ci self b in with_match q r) st
    = (let* q := with_match self r in with_ci q b) st /\
  (let* q := with_ci self b in with_choices q l) st
    = (let* q := with_choices self l in with_ci q b) st /\
  (let* q := with_msg self m in with_input q i) st
    = (let* q := with_input self i in with_msg q m) st /\
  (let* q := with_msg self m in with_match q r) st
    = (let* q := with_match self r in with_msg q m) st /\
  (let* q := with_msg self m in with_choices q l) st
    = (let* q := with_choices self l in with_msg q m) st /\
  (let* q := with_input self i in with_match q r) st
    = (let* q := with_match self r in with_input q i) st /\
  (let* q := with_input self i in with_choices q l) st
    = (let* q := with_choices self l in with_input q i) st /\
  (let* q := with_match self r in with_choices q l) st
    = (let* q := with_choices self l in with_match q r) st.
Proof.
  intros Hp Ho. repeat split; setter_pair Hp Ho.
Qed.

Lemma setters_commute_witness :
  let st := one_prompt Options.default (ticking_world []) in
  (let* q := with_ci 1 false in with_msg q "m") st
    = (let* q := with_msg 1 "m" in with_ci q false) st /\
  (let* q := with_ci 1 false in with_input q "i") st
    = (let* q := with_input 1 "i" in with_ci q false) st /\
  (let* q := with_ci 1 false in with_match q "r") st
    = (let* q := with_match 1 "r" in with_ci q false) st /\
  (let* q := with_ci 1 false in with_choices q fruit) st
    = (let* q := with_choices 1 fruit in with_ci q false) st /\
  (let* q := with_msg 1 "m" in with_input q "i") st
    = (let* q := with_input 1 "i" in with_msg q "m") st /\
  (let* q := with_msg 1 "m" in with_match q "r") st
    = (let* q := with_match 1 "r" in with_msg q "m") st /\
  (let* q := with_msg 1 "m" in with_choices q fruit) st
    = (let* q := with_choices 1 fruit in with_msg q "m") st /\
  (let* q := with_input 1 "i" in with_match q "r") st
    = (let* q := with_match 1 "r" in with_input q "i") st /\
  (let* q := with_input 1 "i" in with_choices q fruit) st
    = (let* q := with_choices 1 fruit in with_input q "i") st /\
  (let* q := with_match 1 "r" in with_choices q fruit) st
    = (let* q := with_choices 1 fruit in with_match q "r") st.
Proof.
  exact (setters_commute
           (one_prompt Options.default (ticking_world [])) 1
           {| options := 0%nat |} Options.default
           false "m" "i" "r" fruit eq_refl eq_refl).
Defined.

(** ** [with_options] *)

Lemma with_options_run {FR : FloatRepr}
    (st : State) (self : loc) (p : TerminalPrompt)
    (ci : option bool) (msg input match_ : option string)
    (choices : option (list string)) :
  h_prompts (heap st) !! self = Some p ->
  exists st',
    with_options self ci msg input match_ choices st = (Ok self, st') /\
    config_of st' self =
      Some {| Options.ci := default true ci;
              Options.msg := default "Continue? (y/n)" msg;
              Options.input := default "" input;
              Options.match_ := default "y" match_;
              Options.choices := default [] choices |} /\
    (forall q, q <> h_next (heap st) ->
               h_options (heap st') !! q = h_options (heap st) !! q) /\
    (forall q, q <> self ->
               h_prompts (heap st') !! q = h_prompts (heap st) !! q) /\
    world st' = world st.
Proof.
  intros Hp. unfold with_options, bind, new_Options, set_self_options. simpl.
  rewrite Hp. eexists. split; [reflexivity|].
  unfold config_of. simpl. rewrite lookup_insert_eq. simpl.
  split; [apply lookup_insert_eq|].
  split; [intros q Hq; now apply lookup_insert_ne|].
  split; [intros q Hq; now apply lookup_insert_ne | reflexivity].
Qed.

(** [with_options] returns [self] and makes it refer to a new [Options]
    object built from the arguments alone, an omitted one taking its default
    ([ci = true], [msg = "Continue? (y/n)"], [input = ""], [match = "y"],
    [choices] empty): nothing of the configuration held before survives.
    The objects that existed keep their contents, the other prompts keep
    their references, and the world is untouched. *)
Theorem with_options_replaces_config {FR : FloatRepr}
    (st : State) (self : loc) (p : TerminalPrompt)
    (ci : option bool) (msg input match_ : option string)
    (choices : option (list string)) :
  h_prompts (heap st) !! self = Some p ->
  exists st',
    with_options self ci msg input match_ choices st = (Ok self, st') /\
    config_of st' self =
      Some {| Options.ci := default true ci;
              Options.msg := default "Continue? (y/n)" msg;
              Options.input := default "" input;
              Options.match_ := default "y" match_;
              Options.choices := default [] choices |} /\
    (forall q, q <> h_next (heap st) ->
               h_options (heap st') !! q = h_options (heap st) !! q) /\
    (forall q, q <> self ->
               h_prompts (heap st') !! q = h_prompts (heap st) !! q) /\
    world st' = world st.
Proof. apply with_options_run. Qed.

(** A prompt configured for the fruit choices, reset with only [input]
    given. *)
Lemma with_options_replaces_config_witness :
  let st := one_prompt (ci_fruit "bear") (ticking_world []) in
  exists st',
    with_options 1 None None (Some "yes") None None st = (Ok 1%nat, st') /\
    config_of st' 1 =
      Some {| Options.ci := true; Options.msg := "Continue? (y/n)";
              Options.input := "yes"; Options.match_ := "y";
              Options.choices := [] |} /\
    (forall q, q <> 2%nat ->
               h_options (heap st') !! q = h_options (heap st) !! q) /\
    (forall q, q <> 1%nat ->
               h_prompts (heap st') !! q = h_prompts (heap st) !! q) /\
    world st' = world st.
Proof.
  exact (with_options_replaces_config
           (one_prompt (ci_fruit "bear") (ticking_world [])) 1
           {| options := 0%nat |} None None (Some "yes") None None eq_refl).
Defined.

Lemma new_TerminalPrompt_run {FR : FloatRepr} (st : State) :
  exists self st1,
    new_TerminalPrompt st = (Ok self, st1) /\
    h_prompts (heap st1) !! self = Some {| options := h_next (heap st) |} /\
    h_options (heap st1) !! h_next (heap st) = Some Options.default /\
    world st1 = world st.
Proof.
  eexists. eexists. split; [reflexivity|]. simpl.
  split; [apply lookup_insert_eq|]. split; [apply lookup_insert_eq | reflexivity].
Qed.

(** Building a configuration field by field on a fresh prompt, or at once
    with [with_options], makes no difference to [execute]: it returns the
    same and leaves the same world, in CI mode and in attended mode. *)
Theorem setter_chain_agrees_with_with_options {FR : FloatRepr} {RE : PyRe}
    (st : State) (b : bool) (m i r : string) (l : list string) :
  let chain :=
    let* p := new_TerminalPrompt in
    let* p := with_ci p b in
    let* p := with_msg p m in
    let* p := with_input p i in
    let* p := with_match p r in
    let* p := with_choices p l in
    execute p in
  let at_once :=
    let* p := new_TerminalPrompt in
    let* p := with_options p (Some b) (Some m) (Some i) (Some r) (Some l) in
    execute p in
  fst (chain st) = fst (at_once st) /\
  world (snd (chain st)) = world (snd (at_once st)).
Proof.
  intros chain at_once. subst chain at_once.
  destruct (new_TerminalPrompt_run st) as (self & st1 & Hnew & Hp & Ho & Hw).
  rewrite !(bind_ok _ _ _ _ _ Hnew).
  destruct (with_options_run st1 self _ (Some b) (Some m) (Some i) (Some r)
              (Some l) Hp) as (st2 & Hwo & Hc2 & _ & _ & Hw2).
  rewrite (bind_ok _ _ _ _ _ Hwo).
  set (p := {| options := h_next (heap st) |}) in *.
  assert (forall (st' : State) (o : Options.t) (f : Options.t -> Options.t),
            h_prompts (heap st') !! self = Some p ->
            h_options (heap st') !! options p = Some o ->
            h_prompts (heap (store_options st' (options p) (f o))) !! self = Some p /\
            h_options (heap (store_options st' (options p) (f o))) !! options p
              = Some (f o)) as Hstep.
  { intros st' o f Hp' _. split; [exact Hp' | apply lookup_insert_eq]. }
  unfold with_ci. rewrite (bind_ok _ _ _ _ _ (setter_run _ _ _ _ _ Hp Ho)).
  destruct (Hstep _ _ (fun o => Options.mk b (Options.msg o) (Options.input o)
                                  (Options.match_ o) (Options.choices o)) Hp Ho)
    as [Hp3 Ho3].
  unfold with_msg. rewrite (bind_ok _ _ _ _ _ (setter_run _ _ _ _ _ Hp3 Ho3)).
  destruct (Hstep _ _ (fun o => Options.mk (Options.ci o) m (Options.input o)
                                  (Options.match_ o) (Options.choices o)) Hp3 Ho3)
    as [Hp4 Ho4].
  unfold with_input. rewrite (bind_ok _ _ _ _ _ (setter_run _ _ _ _ _ Hp4 Ho4)).
  destruct (Hstep _ _ (fun o => Options.mk (Options.ci o) (Options.msg o) i
                                  (Options.match_ o) (Options.choices o)) Hp4 Ho4)
    as [Hp5 Ho5].
  unfold with_match. rewrite (bind_ok _ _ _ _ _ (setter_run _ _ _ _ _ Hp5 Ho5)).
  destruct (Hstep _ _ (fun o => Options.mk (Options.ci o) (Options.msg o)
                                  (Options.input o) r (Options.choices o)) Hp5 Ho5)
    as [Hp6 Ho6].
  unfold with_choices. rewrite (bind_ok _ _ _ _ _ (setter_run _ _ _ _ _ Hp6 Ho6)).
  destruct (Hstep _ _ (fun o => Options.mk (Options.ci o) (Options.msg o)
                                  (Options.input o) (Options.match_ o) l) Hp6 Ho6)
    as [Hp7 Ho7].
  apply (execute_frame_run _ _ _ _ (Options.mk b m i r l)).
  - unfold config_of. rewrite Hp7. exact Ho7.
  - exact Hc2.
  - simpl. now rewrite Hw2.
Qed.

(** ** The badge module *)

Section Lines.

Variable lf : ascii.

Lemma split_on_nonempty (sep : ascii) (s : string) : split_on sep s <> [].
Proof.
  destruct s as [|c s]; simpl; [discriminate|].
  destruct (Ascii.eqb c sep); [discriminate|].
  destruct (split_on sep s); discriminate.
Qed.

(** Splitting at line feeds and joining with line feeds gives the text
    back. *)
Lemma join_split_on (s : string) :
  join (String lf EmptyString) (split_on lf s) = s.
Proof.
  induction s as [|c s IH]; simpl; [reflexivity|].
  destruct (Ascii.eqb_spec c lf) as [->|Hc].
  - pose proof (split_on_nonempty lf s) as Hne.
    destruct (split_on lf s) as [|h t] eqn:E; [congruence|].
    change (join (String lf EmptyString) (EmptyString :: h :: t))
      with (EmptyString +:+ String lf EmptyString
              +:+ join (String lf EmptyString) (h :: t)).
    now rewrite IH.
  - pose proof (split_on_nonempty lf s) as Hne.
    destruct (split_on lf s) as [|h t] eqn:E; [congruence|].
    destruct t as [|h' t'].
    + simpl in *. now rewrite IH.
    + change (join (String lf EmptyString) (String c h :: h' :: t'))
        with (String c (h +:+ String lf EmptyString
                          +:+ join (String lf EmptyString) (h' :: t'))).
      now rewrite <- IH.
Qed.

Lemma split_on_no_sep (s : string) : has_char lf s = false -> split_on lf s = [s].
Proof.
  induction s as [|c s IH]; simpl; [reflexivity|].
  intros E. apply orb_false_elim in E as [E1 E2].
  rewrite E1, (IH E2). reflexivity.
Qed.

Lemma split_on_app (s t : string) :
  has_char lf s = false ->
  split_on lf (s +:+ String lf t) = s :: split_on lf t.
Proof.
  induction s as [|c s IH]; intros E.
  - change (EmptyString +:+ String lf t) with (String lf t).
    simpl. now rewrite Ascii.eqb_refl.
  - simpl in E. apply orb_false_elim in E as [E1 E2].
    change (String c s +:+ String lf t) with (String c (s +:+ String lf t)).
    simpl. now rewrite E1, (IH E2).
Qed.

(** Joining lines that hold no line feed and splitting again gives the
    lines back. *)
Lemma split_on_join (lines : list string) :
  lines <> [] ->
  Forall (fun l => has_char lf l = false) lines ->
  split_on lf (join (String lf EmptyString) lines) = lines.
Proof.
  induction lines as [|l ls IH]; [congruence|]. intros _ H.
  apply Forall_cons in H as [Hl Hls].
  destruct ls as [|l' ls'].
  - simpl. now apply split_on_no_sep.
  - change (join (String lf EmptyString) (l :: l' :: ls'))
      with (l +:+ String lf (join (String lf EmptyString) (l' :: ls'))).
    rewrite (split_on_app _ _ Hl). f_equal. now apply IH.
Qed.

Lemma split_on_pieces (s : string) :
  Forall (fun l => has_char lf l = false) (split_on lf s).
Proof.
  induction s as [|c s IH]; simpl.
  - now repeat constructor.
  - destruct (Ascii.eqb c lf) eqn:E.
    + constructor; [reflexivity | exact IH].
    + destruct (split_on lf s) as [|h t]; [now repeat constructor; simpl; rewrite E|].
      apply Forall_cons in IH as [Hh Ht].
      constructor; [simpl; now rewrite E, Hh | exact Ht].
Qed.

Lemma py_insert_app (x : string) (A B : list string) (i : nat) :
  length A = i -> py_insert i x (A ++ B) = A ++ x :: B.
Proof.
  intros <-. unfold py_insert.
  induction A as [|a A IH]; simpl; [reflexivity|].
  now rewrite IH.
Qed.

End Lines.

Section Badge.

Variable markdown_link : string.

Lemma scan_skip_plain (lines pre rest : list string) (i : nat) :
  Forall (fun l => starts_with_hash l = false) pre ->
  DaggerBadge.scan markdown_link lines (pre ++ rest) i false
  = DaggerBadge.scan markdown_link lines rest (i + length pre) false.
Proof.
  revert i. induction pre as [|l pre IH]; intros i H; simpl.
  - now rewrite Nat.add_0_r.
  - apply Forall_cons in H as [Hl Hpre]. rewrite Hl. simpl.
    rewrite (IH (S i) Hpre). f_equal. lia.
Qed.

Lemma scan_skip_blank (lines blanks rest : list string) (i : nat) :
  Forall (fun l => nonblank l = false) blanks ->
  DaggerBadge.scan markdown_link lines (blanks ++ rest) i true
  = DaggerBadge.scan markdown_link lines rest (i + length blanks) true.
Proof.
  revert i. induction blanks as [|l blanks IH]; intros i H; simpl.
  - now rewrite Nat.add_0_r.
  - apply Forall_cons in H as [Hl Hb]. rewrite Hl, andb_false_r. simpl.
    rewrite (IH (S i) Hb). f_equal. lia.
Qed.

Lemma scan_inserts (pre blanks post : list string) (h l : string) :
  Forall (fun x => starts_with_hash x = false) pre ->
  starts_with_hash h = true ->
  Forall (fun x => nonblank x = false) blanks ->
  nonblank l = true ->
  let lines := pre ++ h :: blanks ++ l :: post in
  DaggerBadge.scan markdown_link lines lines 0 false
  = pre ++ h :: blanks ++ EmptyString :: markdown_link :: EmptyString :: l :: post.
Proof.
  intros Hpre Hh Hb Hl lines.
  unfold lines at 2. rewrite (scan_skip_plain lines pre _ 0 Hpre).
  simpl. rewrite Hh. simpl.
  rewrite (scan_skip_blank lines blanks _ _ Hb). simpl.
  rewrite Hl, andb_false_r. simpl.
  set (A := pre ++ h :: blanks).
  assert (lines = A ++ l :: post) as ->
    by (unfold lines, A; now rewrite <- app_assoc).
  assert (length A = S (length pre + length blanks)) as HA
    by (unfold A; rewrite length_app; simpl; lia).
  rewrite (py_insert_app EmptyString A (l :: post)) by lia.
  change (A ++ EmptyString :: l :: post)
    with (A ++ [EmptyString] ++ l :: post).
  rewrite app_assoc.
  rewrite (py_insert_app markdown_link (A ++ [EmptyString]) (l :: post))
    by (rewrite length_app; simpl; lia).
  change ((A ++ [EmptyString]) ++ markdown_link :: l :: post)
    with ((A ++ [EmptyString]) ++ [markdown_link] ++ l :: post).
  rewrite app_assoc.
  rewrite (py_insert_app EmptyString ((A ++ [EmptyString]) ++ [markdown_link])
             (l :: post))
    by (rewrite !length_app; simpl; lia).
  unfold A. rewrite <- !app_assoc. reflexivity.
Qed.

Lemma scan_no_heading (lines rest : list string) (i : nat) :
  Forall (fun l => starts_with_hash l = false) rest ->
  DaggerBadge.scan markdown_link lines rest i false = lines.
Proof.
  intros H. rewrite <- (app_nil_r rest).
  now rewrite (scan_skip_plain lines rest [] i H).
Qed.

Lemma scan_heading_then_blank (lines pre blanks : list string) (h : string) (i : nat) :
  Forall (fun x => starts_with_hash x = false) pre ->
  starts_with_hash h = true ->
  Forall (fun x => nonblank x = false) blanks ->
  DaggerBadge.scan markdown_link lines (pre ++ h :: blanks) i false = lines.
Proof.
  intros Hpre Hh Hb. rewrite (scan_skip_plain lines pre _ i Hpre).
  simpl. rewrite Hh. simpl.
  rewrite <- (app_nil_r blanks).
  now rewrite (scan_skip_blank lines blanks [] _ Hb).
Qed.

End Badge.

Lemma add_badge_run (markdown link : string)
    (pre blanks post : list string) (h l : string) :
  split_on line_feed markdown = pre ++ h :: blanks ++ l :: post ->
  Forall (fun x => starts_with_hash x = false) pre ->
  starts_with_hash h = true ->
  Forall (fun x => nonblank x = false) blanks ->
  nonblank l = true ->
  DaggerBadge.add_badge_to_markdown markdown link
  = join (String line_feed EmptyString)
      (pre ++ h :: blanks ++ EmptyString :: link :: EmptyString :: l :: post).
Proof.
  intros Hs Hpre Hh Hb Hl. unfold DaggerBadge.add_badge_to_markdown.
  cbv zeta. rewrite Hs.
  now rewrite (scan_inserts link pre blanks post h l Hpre Hh Hb Hl).
Qed.

(** When the markdown has a first heading (a line that starts with [#]) and,
    after it, a line that is not blank, [add_badge_to_markdown] puts three
    lines before the first such line: an empty line, the badge, an empty
    line.  Every line of the text stays, in its order. *)
Theorem add_badge_inserts_below_first_heading (markdown link : string)
    (pre blanks post : list string) (h l : string) :
  split_on line_feed markdown = pre ++ h :: blanks ++ l :: post ->
  Forall (fun x => starts_with_hash x = false) pre ->
  starts_with_hash h = true ->
  Forall (fun x => nonblank x = false) blanks ->
  nonblank l = true ->
  DaggerBadge.add_badge_to_markdown markdown link
  = join (String line_feed EmptyString)
      (pre ++ h :: blanks ++ EmptyString :: link :: EmptyString :: l :: post).
Proof. apply add_badge_run. Qed.

Lemma add_badge_inserts_below_first_heading_witness :
  DaggerBadge.add_badge_to_markdown
    (join nl ["intro"; "# Title"; ""; "text"; "more"]) "BADGE"
  = join (String line_feed EmptyString)
      (["intro"] ++ "# Title" :: [""] ++ "" :: "BADGE" :: "" :: "text" :: ["more"]).
Proof.
  apply (add_badge_inserts_below_first_heading
           (join nl ["intro"; "# Title"; ""; "text"; "more"]) "BADGE"
           ["intro"] [""] ["more"] "# Title" "text");
    [reflexivity | | reflexivity | | reflexivity];
    repeat constructor.
Defined.

(** Without a place to put it, the badge is dropped and the text comes back
    as it was: when no line starts with [#], and when every line after the
    first heading is blank. *)
Theorem add_badge_without_place_is_identity (markdown link : string) :
  (Forall (fun x => starts_with_hash x = false) (split_on line_feed markdown) \/
   exists pre h blanks,
     split_on line_feed markdown = pre ++ h :: blanks /\
     Forall (fun x => starts_with_hash x = false) pre /\
     starts_with_hash h = true /\
     Forall (fun x => nonblank x = false) blanks) ->
  DaggerBadge.add_badge_to_markdown markdown link = markdown.
Proof.
  intros H. unfold DaggerBadge.add_badge_to_markdown. cbv zeta.
  destruct H as [H | (pre & h & blanks & Hs & Hpre & Hh & Hb)].
  - rewrite (scan_no_heading link _ _ 0 H). apply join_split_on.
  - rewrite Hs at 2.
    rewrite (scan_heading_then_blank link _ pre blanks h 0 Hpre Hh Hb).
    apply join_split_on.
Qed.

(** A heading followed by blank lines only. *)
Lemma add_badge_without_place_is_identity_witness :
  DaggerBadge.add_badge_to_markdown (join nl ["# Title"; "  "; ""]) "BADGE"
  = join nl ["# Title"; "  "; ""].
Proof.
  apply (add_badge_without_place_is_identity
           (join nl ["# Title"; "  "; ""]) "BADGE").
  right. exists [], "# Title", ["  "; ""].
  repeat split; repeat constructor.
Defined.

(** The function does not look for a badge that is already there: applied
    again with the same badge (one that is not blank and holds no line
    feed), it puts a second copy above the first. *)
Theorem add_badge_twice_adds_two_badges (markdown link : string)
    (pre blanks post : list string) (h l : string) :
  split_on line_feed markdown = pre ++ h :: blanks ++ l :: post ->
  Forall (fun x => starts_with_hash x = false) pre ->
  starts_with_hash h = true ->
  Forall (fun x => nonblank x = false) blanks ->
  nonblank l = true ->
  nonblank link = true ->
  has_char line_feed link = false ->
  DaggerBadge.add_badge_to_markdown
    (DaggerBadge.add_badge_to_markdown markdown link) link
  = join (String line_feed EmptyString)
      (pre ++ h :: blanks ++ EmptyString :: EmptyString :: link :: EmptyString
           :: link :: EmptyString :: l :: post).
Proof.
  intros Hs Hpre Hh Hb Hl Hlink Hnl.
  rewrite (add_badge_run markdown link pre blanks post h l Hs Hpre Hh Hb Hl).
  pose proof (split_on_pieces line_feed markdown) as Hp. rewrite Hs in Hp.
  apply Forall_app in Hp as [Hp1 Hp2].
  apply Forall_cons in Hp2 as [Hp2 Hp3].
  apply Forall_app in Hp3 as [Hp3 Hp4].
  rewrite (add_badge_run _ link pre (blanks ++ [EmptyString])
             (EmptyString :: l :: post) h link).
  - now rewrite <- app_assoc.
  - rewrite split_on_join.
    + now rewrite <- app_assoc.
    + now destruct pre.
    + apply Forall_app. split; [exact Hp1|].
      constructor; [exact Hp2|]. apply Forall_app. split; [exact Hp3|].
      repeat (constructor; [reflexivity || exact Hnl|]). exact Hp4.
  - exact Hpre.
  - exact Hh.
  - apply Forall_app. split; [exact Hb | now repeat constructor].
  - exact Hlink.
Qed.

Lemma add_badge_twice_adds_two_badges_witness :
  DaggerBadge.add_badge_to_markdown
    (DaggerBadge.add_badge_to_markdown (join nl ["# Title"; "text"]) "BADGE")
    "BADGE"
  = join (String line_feed EmptyString)
      ([] ++ "# Title" :: [] ++ "" :: "" :: "BADGE" :: "" :: "BADGE" :: ""
          :: "text" :: []).
Proof.
  apply (add_badge_twice_adds_two_badges
           (join nl ["# Title"; "text"]) "BADGE" [] [] [] "# Title" "text");
    try reflexivity; constructor.
Defined.

(** ** The badge link *)

Lemma string_app_assoc (a b c : string) : (a +:+ b) +:+ c = a +:+ (b +:+ c).
Proof.
  induction a as [|x a IH]; [reflexivity|].
  change (String x ((a +:+ b) +:+ c) = String x (a +:+ (b +:+ c))).
  now rewrite IH.
Qed.

Lemma has_char_app (c : ascii) (a b : string) :
  has_char c (a +:+ b) = has_char c a || has_char c b.
Proof.
  induction a as [|x a IH]; [reflexivity|].
  change (has_char c (String x (a +:+ b)) = has_char c (String x a) || has_char c b).
  simpl. now rewrite IH, orb_assoc.
Qed.

Lemma all_chars_app (p : ascii -> bool) (a b : string) :
  all_chars p (a +:+ b) = all_chars p a && all_chars p b.
Proof.
  induction a as [|x a IH]; [reflexivity|].
  change (all_chars p (String x (a +:+ b)) = all_chars p (String x a) && all_chars p b).
  simpl. now rewrite IH, andb_assoc.
Qed.

Lemma hex_digit_safe (n : nat) : (n < 16)%nat -> always_safe (hex_digit n) = true.
Proof.
  intros H. do 16 (destruct n as [|n]; [reflexivity|]). lia.
Qed.

Lemma hex_digit_inj (a b : nat) :
  (a < 16)%nat -> (b < 16)%nat -> hex_digit a = hex_digit b -> a = b.
Proof.
  intros Ha Hb E. apply (f_equal nat_of_ascii) in E. unfold hex_digit in E.
  destruct (Nat.ltb_spec a 10), (Nat.ltb_spec b 10);
    rewrite !nat_ascii_embedding in E by lia; lia.
Qed.

Lemma byte_halves (b : ascii) :
  (nat_of_ascii b / 16 < 16)%nat /\ (nat_of_ascii b mod 16 < 16)%nat.
Proof.
  pose proof (nat_ascii_bounded b) as H. split.
  - apply Nat.Div0.div_lt_upper_bound. lia.
  - apply Nat.mod_upper_bound. lia.
Qed.

(** A quoted value holds nothing but letters, digits, [_.-~] and the percent
    sign. *)
Lemma quote_from_bytes_chars (bs : list ascii) :
  all_chars quoted_char (quote_from_bytes bs) = true.
Proof.
  induction bs as [|b bs IH]; [reflexivity|]. cbn [quote_from_bytes].
  destruct (always_safe b) eqn:E; cbv zeta; cbn [all_chars].
  - rewrite IH. unfold quoted_char. now rewrite E.
  - destruct (byte_halves b) as [H1 H2]. rewrite IH.
    unfold quoted_char.
    now rewrite (hex_digit_safe _ H1), (hex_digit_safe _ H2).
Qed.

Lemma quote_from_bytes_inj (bs1 bs2 : list ascii) :
  quote_from_bytes bs1 = quote_from_bytes bs2 -> bs1 = bs2.
Proof.
  revert bs2. induction bs1 as [|b1 bs1 IH]; intros [|b2 bs2];
    cbn [quote_from_bytes]; cbv zeta.
  - reflexivity.
  - destruct (always_safe b2); discriminate.
  - destruct (always_safe b1); discriminate.
  - destruct (always_safe b1) eqn:E1, (always_safe b2) eqn:E2.
    + intros [= -> E]. f_equal. now apply IH.
    + intros [= -> _]. discriminate E1.
    + intros [= <- _]. discriminate E2.
    + intros [= Eh El E]. f_equal; [|now apply IH].
      destruct (byte_halves b1) as [H1 H1'], (byte_halves b2) as [H2 H2'].
      apply hex_digit_inj in Eh; [|assumption..].
      apply hex_digit_inj in El; [|assumption..].
      rewrite <- (ascii_nat_embedding b1), <- (ascii_nat_embedding b2).
      f_equal.
      change (nat_of_ascii b1 / 16 = nat_of_ascii b2 / 16)%nat in Eh.
      change (nat_of_ascii b1 mod 16 = nat_of_ascii b2 mod 16)%nat in El.
      pose proof (Nat.div_mod_eq (nat_of_ascii b1) 16).
      pose proof (Nat.div_mod_eq (nat_of_ascii b2) 16).
      lia.
Qed.

Lemma utf8_char_inj (c1 c2 : ascii) (r1 r2 : list ascii) :
  utf8_char c1 ++ r1 = utf8_char c2 ++ r2 -> c1 = c2 /\ r1 = r2.
Proof.
  unfold utf8_char.
  pose proof (nat_ascii_bounded c1) as B1. pose proof (nat_ascii_bounded c2) as B2.
  assert (nat_of_ascii c1 / 64 < 4)%nat as D1
    by (apply Nat.Div0.div_lt_upper_bound; lia).
  assert (nat_of_ascii c2 / 64 < 4)%nat as D2
    by (apply Nat.Div0.div_lt_upper_bound; lia).
  pose proof (Nat.mod_upper_bound (nat_of_ascii c1) 64 ltac:(lia)) as M1.
  pose proof (Nat.mod_upper_bound (nat_of_ascii c2) 64 ltac:(lia)) as M2.
  destruct (Nat.ltb_spec (nat_of_ascii c1) 128) as [L1|L1],
           (Nat.ltb_spec (nat_of_ascii c2) 128) as [L2|L2]; cbn [app].
  - now intros [= -> ->].
  - intros [= E _].
    change (c1 = ascii_of_nat (192 + nat_of_ascii c2 / 64)) in E.
    apply (f_equal nat_of_ascii) in E.
    rewrite nat_ascii_embedding in E by lia. lia.
  - intros [= E _].
    change (ascii_of_nat (192 + nat_of_ascii c1 / 64) = c2) in E.
    apply (f_equal nat_of_ascii) in E.
    rewrite nat_ascii_embedding in E by lia. lia.
  - intros [= Eh El ->]. split; [|reflexivity].
    change (ascii_of_nat (192 + nat_of_ascii c1 / 64)
            = ascii_of_nat (192 + nat_of_ascii c2 / 64)) in Eh.
    change (ascii_of_nat (128 + nat_of_ascii c1 mod 64)
            = ascii_of_nat (128 + nat_of_ascii c2 mod 64)) in El.
    apply (f_equal nat_of_ascii) in Eh, El.
    rewrite !nat_ascii_embedding in Eh, El by lia.
    rewrite <- (ascii_nat_embedding c1), <- (ascii_nat_embedding c2).
    f_equal.
    pose proof (Nat.div_mod_eq (nat_of_ascii c1) 64).
    pose proof (Nat.div_mod_eq (nat_of_ascii c2) 64).
    lia.
Qed.

Lemma encode_utf8_inj (s1 s2 : string) : encode_utf8 s1 = encode_utf8 s2 -> s1 = s2.
Proof.
  unfold encode_utf8.
  rewrite <- (string_of_list_ascii_of_string s1),
          <- (string_of_list_ascii_of_string s2) at 2.
  generalize (list_ascii_of_string s1) (list_ascii_of_string s2).
  intros l1. induction l1 as [|c1 l1 IH]; intros [|c2 l2]; simpl.
  - reflexivity.
  - unfold utf8_char. destruct (nat_of_ascii c2 <? 128)%nat; discriminate.
  - unfold utf8_char. destruct (nat_of_ascii c1 <? 128)%nat; discriminate.
  - intros E. apply utf8_char_inj in E as [-> E]. f_equal. now apply IH.
Qed.

Lemma link_split (self : DaggerBadge.t) :
  DaggerBadge.link self
  = DaggerBadge.link_head
    +:+ DaggerBadge.encoded (DaggerBadge.raw_url self)
    +:+ DaggerBadge.link_tail.
Proof.
  unfold DaggerBadge.link, DaggerBadge.link_head, DaggerBadge.link_tail.
  cbv zeta. generalize (DaggerBadge.encoded (DaggerBadge.raw_url self)) as v.
  intros v. rewrite !string_app_assoc.
  vm_compute. reflexivity.
Qed.

Lemma all_chars_has_char (p : ascii -> bool) (c : ascii) (s : string) :
  p c = false -> all_chars p s = true -> has_char c s = false.
Proof.
  intros Hc. induction s as [|d s IH]; simpl; [reflexivity|].
  intros E. apply andb_prop in E as [Ed Es]. rewrite (IH Es), orb_false_r.
  destruct (Ascii.eqb_spec d c) as [->|_]; [congruence | reflexivity].
Qed.

Lemma nonblank_first (c : ascii) (r : string) :
  py_isspace c = false -> nonblank (String c r) = true.
Proof.
  intros Hc. unfold nonblank, strip. simpl. rewrite Hc. simpl.
  destruct (rstrip r); [now rewrite Hc | reflexivity].
Qed.

(** A link is one line, and not a blank one. *)
Lemma link_one_line (self : DaggerBadge.t) :
  has_char line_feed (DaggerBadge.link self) = false /\
  nonblank (DaggerBadge.link self) = true.
Proof.
  rewrite link_split. split.
  - rewrite !has_char_app.
    assert (has_char line_feed (DaggerBadge.encoded (DaggerBadge.raw_url self))
            = false) as ->
      by (apply (all_chars_has_char quoted_char);
          [reflexivity | apply quote_from_bytes_chars]).
    vm_compute. reflexivity.
  - unfold DaggerBadge.link_head.
    change ("![Dagger](https://img.shields.io/badge/dynamic/json?label=Dagger"
            +:+ ?a) with
      (String "!" ("[Dagger](https://img.shields.io/badge/dynamic/json?label=Dagger"
                     +:+ a)).
    change (String "!" ?a +:+ ?b) with (String "!" (a +:+ b)).
    now apply nonblank_first.
Qed.

(** Whatever [raw_url] is, the link is the fixed head, then [raw_url] quoted,
    then the fixed tail, and the quoted part holds nothing but letters,
    digits, [_.-~] and percent signs: no character of the URL can end the
    parameter, the parenthesis or the line. *)
Theorem link_quotes_raw_url (self : DaggerBadge.t) :
  exists v,
    DaggerBadge.link self = DaggerBadge.link_head +:+ v +:+ DaggerBadge.link_tail /\
    v = quote_from_bytes (encode_utf8 (DaggerBadge.raw_url self)) /\
    all_chars quoted_char v = true /\
    has_char line_feed (DaggerBadge.link self) = false.
Proof.
  exists (DaggerBadge.encoded (DaggerBadge.raw_url self)).
  split; [apply link_split|]. split; [reflexivity|].
  split; [apply quote_from_bytes_chars | exact (proj1 (link_one_line self))].
Qed.

(** Two badges with the same link were made for the same [raw_url]. *)
Theorem link_determines_raw_url (a b : DaggerBadge.t) :
  DaggerBadge.link a = DaggerBadge.link b -> a = b.
Proof.
  rewrite !link_split. intros E.
  apply (inj (String.app DaggerBadge.link_head)) in E.
  apply string_app_inj_r in E.
  apply quote_from_bytes_inj, encode_utf8_inj in E.
  destruct a, b. simpl in E. now subst.
Qed.

Lemma link_determines_raw_url_witness :
  DaggerBadge.mk "https://example.org/dagger.json"
  = DaggerBadge.mk "https://example.org/dagger.json".
Proof.
  exact (link_determines_raw_url
           (DaggerBadge.mk "https://example.org/dagger.json")
           (DaggerBadge.mk "https://example.org/dagger.json") eq_refl).
Defined.

(** Read line by line, the README that [add_to_readme] returns is the README
    it was given with three lines put before the first non-blank line after
    the first heading: an empty line, the link, an empty line. *)
Theorem add_to_readme_lines (self : DaggerBadge.t) (markdown : string)
    (pre blanks post : list string) (h l : string) :
  split_on line_feed markdown = pre ++ h :: blanks ++ l :: post ->
  Forall (fun x => starts_with_hash x = false) pre ->
  starts_with_hash h = true ->
  Forall (fun x => nonblank x = false) blanks ->
  nonblank l = true ->
  split_on line_feed (DaggerBadge.add_to_readme self markdown)
  = pre ++ h :: blanks
        ++ EmptyString :: DaggerBadge.link self :: EmptyString :: l :: post.
Proof.
  intros Hs Hpre Hh Hb Hl. unfold DaggerBadge.add_to_readme.
  rewrite (add_badge_run markdown _ pre blanks post h l Hs Hpre Hh Hb Hl).
  pose proof (split_on_pieces line_feed markdown) as Hp. rewrite Hs in Hp.
  apply Forall_app in Hp as [Hp1 Hp2].
  apply Forall_cons in Hp2 as [Hp2 Hp3].
  apply Forall_app in Hp3 as [Hp3 Hp4].
  apply split_on_join.
  - now destruct pre.
  - apply Forall_app. split; [exact Hp1|].
    constructor; [exact Hp2|]. apply Forall_app. split; [exact Hp3|].
    constructor; [reflexivity|].
    constructor; [exact (proj1 (link_one_line self))|].
    constructor; [reflexivity | exact Hp4].
Qed.

Lemma add_to_readme_lines_witness :
  let self := DaggerBadge.mk "https://example.org/dagger.json" in
  split_on line_feed
    (DaggerBadge.add_to_readme self (join nl ["# Title"; ""; "text"]))
  = [] ++ "# Title" :: [""]
       ++ "" :: DaggerBadge.link self :: "" :: "text" :: [].
Proof.
  apply (add_to_readme_lines
           (DaggerBadge.mk "https://example.org/dagger.json")
           (join nl ["# Title"; ""; "text"]) [] [""] [] "# Title" "text");
    try reflexivity; repeat constructor.
Defined.
